(** * whatsapp-service: the session state machine and the dispatch engine

    A shallow embedding of [src/index.js].  The process keeps four global
    variables ([sock], [qrCodeData], [isConnected], [connectionStatus]);
    every request handler and every transport callback is a piece of code
    that runs to completion between two [await]s of the JavaScript event
    loop.  Each such piece is modelled as a function on the globals, and the
    event loop as a labelled transition system over them.

    - [Phone]    : [formatPhoneNumber] (lines 136-149);
    - [Session]  : the globals, [connectToWhatsApp], the 'connection.update'
                   callback, POST /initialize and POST /logout;
    - [Dispatch] : POST /publish. *)

From Stdlib Require Import List String Ascii Bool Arith ZArith Lia.
Import ListNotations.

Local Open Scope string_scope.
Local Open Scope list_scope.

(** ** JavaScript values shared by the modules *)

(** Truthiness of a value that is either absent ([undefined] / [null]) or a
    string: only a non-empty string is truthy. *)
Definition truthy (v : option string) : bool :=
  match v with
  | Some (String _ _) => true
  | _ => false
  end.

(** The settlement of an awaited promise of the transport: it resolves, or
    it rejects with an error whose [message] is kept. *)
Inductive Await : Type :=
| Resolved
| Rejected (message : string).

(** * Address normalization *)

Module Phone.

(** [\d] of a JavaScript regular expression without the unicode flag: the
    ten ASCII digits. *)
Definition is_digit (c : ascii) : bool :=
  let n := nat_of_ascii c in ((48 <=? n)%nat && (n <=? 57)%nat)%bool.

(** [s.replace(/\D/g, '')]: every character that is not a digit is removed. *)
Fixpoint replace_nondigits (s : string) : string :=
  match s with
  | EmptyString => EmptyString
  | String c rest =>
      if is_digit c then String c (replace_nondigits rest)
      else replace_nondigits rest
  end.

(** [s.startsWith(p)]. *)
Definition startsWith (p s : string) : bool := String.prefix p s.

(** [s.substring(n)]: the characters from index [n] to the end; the whole
    tail is empty when [n] is past the end. *)
Fixpoint substring_from (n : nat) (s : string) : string :=
  match n, s with
  | O, _ => s
  | S _, EmptyString => EmptyString
  | S m, String _ rest => substring_from m rest
  end.

(** [s.replace(/^\+/, '')]: one plus sign at the very start is removed. *)
Definition replace_leading_plus (s : string) : string :=
  match s with
  | String c rest => if Ascii.eqb c "+" then rest else s
  | EmptyString => s
  end.

Definition suffix : string := "@s.whatsapp.net".

(** Lines 136-149. *)
Definition formatPhoneNumber (number : string) : string :=
  let cleaned := replace_nondigits number in
  let cleaned := if startsWith "00" cleaned then substring_from 2 cleaned else cleaned in
  let cleaned := replace_leading_plus cleaned in
  cleaned ++ suffix.

(** The normalization as the specification words it: keep the digits, drop
    a leading [00], strip leading plus signs, append the suffix. *)
Definition keep_digits (s : string) : string :=
  string_of_list_ascii (filter is_digit (list_ascii_of_string s)).

Definition drop_international_prefix (s : string) : string :=
  match s with
  | String a (String b rest) =>
      if Ascii.eqb a "0" && Ascii.eqb b "0" then rest else s
  | _ => s
  end.

Fixpoint strip_leading_plus (s : string) : string :=
  match s with
  | String c rest => if Ascii.eqb c "+" then strip_leading_plus rest else s
  | EmptyString => s
  end.

Definition normalize_spec (address : string) : string :=
  strip_leading_plus (drop_international_prefix (keep_digits address)) ++ suffix.

(** A string made of digits only. *)
Fixpoint all_digits (s : string) : bool :=
  match s with
  | EmptyString => true
  | String c rest => is_digit c && all_digits rest
  end.

End Phone.

(** * HTTP replies *)

Module Http.

(** The fields every handler answers with: the status code given to
    [res.status] (200 when the handler calls [res.json] directly) and the
    [success] and [message] members of the JSON body. *)
Record Reply : Type := mkReply {
  code : nat;
  success : bool;
  message : string
}.

End Http.

(** * Session manager *)

Module Session.

(** A transport instance is named by the rank of the [makeWASocket] call
    that created it. *)
Definition Handle : Type := nat.

(** The contents of the [auth_info] directory. *)
Definition Creds : Type := string.

(** The four string values ever assigned to [connectionStatus]. *)
Inductive Status : Type :=
| disconnected
| initializing
| qr_ready
| connected.

Definition Status_eqb (a b : Status) : bool :=
  match a, b with
  | disconnected, disconnected
  | initializing, initializing
  | qr_ready, qr_ready
  | connected, connected => true
  | _, _ => false
  end.

(** The process state.  The first four fields are the global variables of
    lines 13-16.  The others are the part of the environment the handlers
    act on: what is stored in the [auth_info] directory ([None] when nothing
    is: the directory does not exist or, [useMultiFileAuthState] having
    created it at line 22, is still empty; nothing in a run of the process
    tells the two apart), the transports created so far and those not yet
    closed, the calls of [connectToWhatsApp] that are suspended before
    line 25, the delays of the pending reconnect timers, and the
    [sock.logout()] calls not yet settled. *)
Record State : Type := mkState {
  sock : option Handle;
  qrCodeData : option string;
  isConnected : bool;
  connectionStatus : Status;
  authDir : option Creds;
  sockets : nat;
  live : list Handle;
  connects : nat;
  timers : list nat;
  loggingOut : nat
}.

(** Modelled from the spec: [DisconnectReason.loggedOut] is a constant of
    the transport library, which is not among the sources; the spec says
    that exactly one reason value stands for "the remote end revoked this
    session".  The library gives it the value 401; the theorems below hold
    whatever the value is. *)
Definition loggedOut : Z := 401%Z.

(** The [connection] member of an update. *)
Inductive Connection : Type :=
| close
| open
| connecting.

(** The argument of the 'connection.update' callback: [connection], the
    value of [lastDisconnect?.error?.output?.statusCode] ([None] when any
    link of the chain is undefined) and [qr]. *)
Record Update : Type := mkUpdate {
  connection : option Connection;
  statusCode : option Z;
  qr : option string
}.

(** [statusCode !== DisconnectReason.loggedOut] (line 42). *)
Definition shouldReconnect (u : Update) : bool :=
  match statusCode u with
  | Some c => negb (Z.eqb c loggedOut)
  | None => true
  end.

(** The delay of the reconnect timer (line 50), in milliseconds. *)
Definition reconnect_delay : nat := 3000.

(** Lines 35-39. *)
Definition on_qr (u : Update) (s : State) : State :=
  if truthy (qr u) then
    mkState (sock s) (qr u) (isConnected s) qr_ready
            (authDir s) (sockets s) (live s) (connects s) (timers s) (loggingOut s)
  else s.

(** Lines 45-51: the flags are reset and, unless the reason is
    [loggedOut], a timer that will call [connectToWhatsApp] is set. *)
Definition on_close (u : Update) (s : State) : State :=
  mkState (sock s) None false disconnected
          (authDir s) (sockets s) (live s) (connects s)
          (if shouldReconnect u then timers s ++ [reconnect_delay] else timers s)
          (loggingOut s).

(** Lines 53-56. *)
Definition on_open (s : State) : State :=
  mkState (sock s) None true connected
          (authDir s) (sockets s) (live s) (connects s) (timers s) (loggingOut s).

(** The transport [h] has closed: it leaves the live ones. *)
Definition retire (h : Handle) (s : State) : State :=
  mkState (sock s) (qrCodeData s) (isConnected s) (connectionStatus s)
          (authDir s) (sockets s) (filter (fun k => negb (Nat.eqb k h)) (live s))
          (connects s) (timers s) (loggingOut s).

(** The 'connection.update' callback registered on transport [h]
    (lines 32-58). *)
Definition on_connection_update (h : Handle) (u : Update) (s : State) : State :=
  let s := on_qr u s in
  match connection u with
  | Some close => retire h (on_close u s)
  | Some open => on_open s
  | _ => s
  end.

(** The 'creds.update' callback, [saveCreds] (line 60): the credentials are
    written to the directory. *)
Definition saveCreds (c : Creds) (s : State) : State :=
  mkState (sock s) (qrCodeData s) (isConnected s) (connectionStatus s)
          (Some c) (sockets s) (live s) (connects s) (timers s) (loggingOut s).

(** [connectToWhatsApp] up to its first [await] (lines 21-23): nothing is
    written yet, one more call is suspended. *)
Definition connect_begin (s : State) : State :=
  mkState (sock s) (qrCodeData s) (isConnected s) (connectionStatus s)
          (authDir s) (sockets s) (live s) (S (connects s)) (timers s) (loggingOut s).

(** [connectToWhatsApp] from line 25 on: a new transport is created and
    assigned to [sock]; the transport it replaces is not closed. *)
Definition makeSocket (s : State) : State :=
  mkState (Some (sockets s)) (qrCodeData s) (isConnected s) (connectionStatus s)
          (authDir s) (S (sockets s)) (live s ++ [sockets s])
          (connects s) (timers s) (loggingOut s).

Definition connect_end (s : State) : State :=
  let s := makeSocket s in
  mkState (sock s) (qrCodeData s) (isConnected s) (connectionStatus s)
          (authDir s) (sockets s) (live s) (pred (connects s)) (timers s) (loggingOut s).

(** [sock && isConnected] (lines 66, 117, 154). *)
Definition sock_and_isConnected (s : State) : bool :=
  match sock s with
  | Some _ => isConnected s
  | None => false
  end.

(** Lines 70-71. *)
Definition initialize_begin (s : State) : State :=
  mkState (sock s) None (isConnected s) initializing
          (authDir s) (sockets s) (live s) (connects s) (timers s) (loggingOut s).

(** Lines 229-237: the directory is removed and the four globals reset. *)
Definition logout_end (s : State) : State :=
  mkState None None false disconnected
          None (sockets s) (live s) (connects s) (timers s) (loggingOut s).

Definition logout_call (s : State) : State :=
  mkState (sock s) (qrCodeData s) (isConnected s) (connectionStatus s)
          (authDir s) (sockets s) (live s) (connects s) (timers s) (S (loggingOut s)).

Definition logout_settle (a : Await) (s : State) : State :=
  let s := mkState (sock s) (qrCodeData s) (isConnected s) (connectionStatus s)
                   (authDir s) (sockets s) (live s) (connects s) (timers s)
                   (pred (loggingOut s)) in
  match a with
  | Resolved => logout_end s
  | Rejected _ => s
  end.

(** ** The event loop

    A label is one run-to-completion piece of code that writes the state.
    The pieces that only read it (GET /status, GET /qr-code, GET /groups,
    POST /publish, the polling of POST /initialize) are not labels.  A
    transport calls back from its creation until it has reported its
    close. *)
Inductive Label : Type :=
| ConnectionUpdate (h : Handle) (u : Update)
    (* transport [h] emits 'connection.update' *)
| CredsUpdate (h : Handle) (c : Creds)
    (* transport [h] emits 'creds.update' *)
| TimerFires
    (* the oldest reconnect timer expires: [connectToWhatsApp()] *)
| SocketMade
    (* a suspended [connectToWhatsApp] reaches line 25 *)
| InitializeRequest
    (* POST /initialize, lines 66-72 up to the first [await] *)
| LogoutRequest
    (* POST /logout, lines 225-226, and the rest when [sock] is null *)
| LogoutSettled (a : Await).
    (* an awaited [sock.logout()] settles: lines 229-239 or 241-242 *)

Definition is_live (h : Handle) (s : State) : bool :=
  existsb (Nat.eqb h) (live s).

(** A label that is not enabled leaves the state as it is. *)
Definition step (l : Label) (s : State) : State :=
  match l with
  | ConnectionUpdate h u =>
      if is_live h s then on_connection_update h u s else s
  | CredsUpdate h c =>
      if is_live h s then saveCreds c s else s
  | TimerFires =>
      match timers s with
      | [] => s
      | _ :: rest =>
          connect_begin
            (mkState (sock s) (qrCodeData s) (isConnected s) (connectionStatus s)
                     (authDir s) (sockets s) (live s) (connects s) rest (loggingOut s))
      end
  | SocketMade =>
      match connects s with
      | O => s
      | S _ => connect_end s
      end
  | InitializeRequest =>
      if sock_and_isConnected s then s else connect_begin (initialize_begin s)
  | LogoutRequest =>
      match sock s with
      | Some _ => logout_call s
      | None => logout_end s
      end
  | LogoutSettled a =>
      match loggingOut s with
      | O => s
      | S _ => logout_settle a s
      end
  end.

(** The labels of a trace, oldest first. *)
Definition exec (tr : list Label) (s : State) : State :=
  fold_left (fun acc l => step l acc) tr s.

(** Process start (lines 13-16 and 251-255): the globals are null, false
    and 'disconnected'; when the directory exists [connectToWhatsApp] is
    called at once. *)
Definition init (auth : option Creds) : State :=
  let s := mkState None None false disconnected auth 0 [] 0 [] 0 in
  match auth with
  | Some _ => connect_begin s
  | None => s
  end.

Definition reachable (s : State) : Prop :=
  exists auth tr, s = exec tr (init auth).

(** ** POST /initialize (lines 64-92) *)

(** [env k] is what the event loop runs while the handler is suspended for
    the [k]-th time: [env 0] during [await connectToWhatsApp()], [env (S k)]
    during the sleep that follows the [k]-th failed test of line 76. *)
Definition Env : Type := nat -> list Label.

Definition max_attempts : nat := 20.
Definition poll_interval : nat := 500.

(** The loop of lines 75-79.  It returns the number of sleeps and the state
    in which the test of line 76 failed. *)
Fixpoint wait_for_qr (fuel : nat) (env : Env) (attempts : nat) (s : State)
  : option (nat * State) :=
  match fuel with
  | O => None
  | S fuel' =>
      if negb (truthy (qrCodeData s))
         && (attempts <? max_attempts)%nat
         && negb (Status_eqb (connectionStatus s) connected)
      then wait_for_qr fuel' env (S attempts) (exec (env (S attempts)) s)
      else Some (attempts, s)
  end.

(** What the handler answers: the reply, its [status] member, and the
    number of sleeps it went through. *)
Record Answer : Type := mkAnswer {
  reply : Http.Reply;
  status : option Status;
  sleeps : nat
}.

(** Lines 81-87. *)
Definition initialize_reply (attempts : nat) (s : State) : Answer :=
  if isConnected s then
    mkAnswer (Http.mkReply 200 true "Already authenticated") (Some connected) attempts
  else if truthy (qrCodeData s) then
    mkAnswer (Http.mkReply 200 true "QR code generated") (Some qr_ready) attempts
  else
    mkAnswer (Http.mkReply 500 false "Failed to generate QR code") None attempts.

(** The whole handler.  [conn] is the settlement of the library calls in
    [connectToWhatsApp] (lines 22-30); when they reject, the [catch] of
    lines 88-91 answers.  The handler's own call of [connectToWhatsApp] is
    followed here from its start to line 25, so it is not counted among the
    suspended calls of [connects]. *)
Definition initialize (fuel : nat) (conn : Await) (env : Env) (s : State)
  : option (State * Answer) :=
  if sock_and_isConnected s then
    Some (s, mkAnswer (Http.mkReply 200 true "Already connected") (Some connected) 0)
  else
    let s := exec (env 0) (initialize_begin s) in
    match conn with
    | Rejected m => Some (s, mkAnswer (Http.mkReply 500 false m) None 0)
    | Resolved =>
        match wait_for_qr fuel env 0 (makeSocket s) with
        | Some (attempts, s') => Some (s', initialize_reply attempts s')
        | None => None
        end
    end.

(** ** POST /logout (lines 223-244) *)

(** [teardown] is the settlement of [sock.logout()], [during] what the
    event loop runs while the handler awaits it. *)
Definition logout (teardown : Await) (during : list Label) (s : State)
  : State * Http.Reply :=
  match sock s with
  | Some _ =>
      match teardown with
      | Resolved =>
          (logout_end (exec during s), Http.mkReply 200 true "Logged out successfully")
      | Rejected m =>
          (exec during s, Http.mkReply 500 false m)
      end
  | None =>
      (logout_end s, Http.mkReply 200 true "Logged out successfully")
  end.

(** ** State predicates *)

(** The pairing code is there exactly in the phase PairingReady. *)
Definition pairing_code_phase (s : State) : Prop :=
  qrCodeData s <> None <-> connectionStatus s = qr_ready.

(** The transport handle is there exactly outside the phase Disconnected. *)
Definition handle_phase (s : State) : Prop :=
  sock s <> None <-> connectionStatus s <> disconnected.

(** The phase Connected is only shown while the connected flag is set. *)
Definition connected_flag (s : State) : Prop :=
  connectionStatus s = connected -> isConnected s = true.

(** A stored pairing code is a truthy value. *)
Definition pairing_code_truthy (s : State) : Prop :=
  qrCodeData s <> None -> truthy (qrCodeData s) = true.

(** The three facts about the flags that every piece of code keeps. *)
Definition flags_ok (s : State) : Prop :=
  pairing_code_phase s /\ connected_flag s /\ pairing_code_truthy s.

(** The live transports are among those created. *)
Definition live_bound (s : State) : Prop :=
  Forall (fun h => h < sockets s) (live s).

(** The states the handler of POST /initialize sees at its successive tests
    of line 76, [d] sleeps after the one made with [attempts] sleeps. *)
Fixpoint advance (env : Env) (attempts d : nat) (s : State) : State :=
  match d with
  | O => s
  | S d' => advance env (S attempts) d' (exec (env (S attempts)) s)
  end.

(** The test of line 76. *)
Definition keeps_waiting (attempts : nat) (s : State) : bool :=
  negb (truthy (qrCodeData s))
  && (attempts <? max_attempts)%nat
  && negb (Status_eqb (connectionStatus s) connected).

(** An update that only says the connection is open. *)
Definition opened : Update := mkUpdate (Some open) None None.

(** An update that says the connection closed with status code [c]. *)
Definition closed (c : option Z) : Update := mkUpdate (Some close) c None.

(** A run used as example: a first POST /initialize creates transport 0,
    the transport reports credentials, and the connection opens. *)
Definition paired : State :=
  exec [InitializeRequest; SocketMade; CredsUpdate 0 "creds"; ConnectionUpdate 0 opened]
       (init None).

(** A run used as example: a first POST /initialize has created transport 0
    and is polling; neither a pairing code nor an open event has come. *)
Definition pending : State :=
  exec [InitializeRequest; SocketMade] (init None).

(** An environment in which nothing happens. *)
Definition quiet : Env := fun _ => [].

(** The phase Disconnected is only shown while the connected flag is off. *)
Definition disconnected_flag (s : State) : Prop :=
  connectionStatus s = disconnected -> isConnected s = false.

(** A run used as example: two POST /initialize have created transports 0
    and 1, transport 1 has opened, and transport 0, still waiting to be
    paired, has then issued a fresh pairing code. *)
Definition connected_with_stray_code : State :=
  exec [InitializeRequest; SocketMade; InitializeRequest; SocketMade;
        ConnectionUpdate 1 opened;
        ConnectionUpdate 0 (mkUpdate None None (Some "2@k9"))]
       (init None).

(** A run used as example: a first POST /initialize has created transport
    0, a POST /logout has completed while that transport has not yet
    reported its close, and the transport then reports that it is open. *)
Definition flag_without_handle : State :=
  exec [InitializeRequest; SocketMade; LogoutRequest; LogoutSettled Resolved;
        ConnectionUpdate 0 opened]
       (init None).

End Session.

(** * Dispatch engine *)

Module Dispatch.

(** The members of [req.body] read at line 158; a member that is absent is
    [None]. *)
Record Body : Type := mkBody {
  mode : option string;
  recipients : option (list string);
  groupId : option string;
  caption : option string;
  mediaUrl : option string;
  mediaType : option string
}.

(** The second argument of [sock.sendMessage]. *)
Inductive Content : Type :=
| Text (text : string)
| Image (url : string) (caption : string)
| Video (url : string) (caption : string).

(** One evaluation of [sock.sendMessage(jid, content)] by the handler: a
    call of the transport or, when [sock] has been reset to null in the
    meantime, the [TypeError] raised in its place. *)
Record Sent : Type := mkSent {
  jid : string;
  content : Content
}.

(** The transport as the handler sees it: how an attempted send settles,
    given the attempts made before it.  An attempt on a [sock] that has been
    set to null in the meantime rejects like any other failed one, the
    [TypeError] being caught by the same [catch]. *)
Definition Network : Type := list Sent -> Sent -> Await.

(** One element of [results]. *)
Record Result : Type := mkResult {
  recipient : string;
  success : bool;
  error : option string
}.

(** [mediaType === 'video']. *)
Definition is_video (mediaType : option string) : bool :=
  match mediaType with
  | Some t => String.eqb t "video"
  | None => false
  end.

(** [mode === m]. *)
Definition mode_is (m : string) (b : Body) : bool :=
  match mode b with
  | Some t => String.eqb t m
  | None => false
  end.

Definition text_of (v : option string) : string :=
  match v with
  | Some t => t
  | None => ""
  end.

(** The branching of lines 172-181, repeated at lines 194-201. *)
Definition message (b : Body) : Content :=
  if truthy (mediaUrl b) then
    if is_video (mediaType b)
    then Video (text_of (mediaUrl b)) (text_of (caption b))
    else Image (text_of (mediaUrl b)) (text_of (caption b))
  else Text (text_of (caption b)).

(** One [try] / [catch] around a send (lines 169-187 and 193-206): the
    attempt is logged, and the result names [who]. *)
Definition attempt (net : Network) (who : string) (m : Sent) (log : list Sent)
  : Result * list Sent :=
  (match net log m with
   | Resolved => mkResult who true None
   | Rejected e => mkResult who false (Some e)
   end,
   log ++ [m]).

(** The loop of lines 168-188. *)
Fixpoint send_numbers (net : Network) (b : Body) (rs : list string)
         (results : list Result) (log : list Sent) : list Result * list Sent :=
  match rs with
  | [] => (results, log)
  | recipient :: rest =>
      let formattedNumber := Phone.formatPhoneNumber recipient in
      let (r, log') := attempt net recipient (mkSent formattedNumber (message b)) log in
      send_numbers net b rest (results ++ [r]) log'
  end.

(** Lines 192-207. *)
Definition send_group (net : Network) (b : Body)
           (results : list Result) (log : list Sent) : list Result * list Sent :=
  let (r, log') := attempt net "group" (mkSent (text_of (groupId b)) (message b)) log in
  (results ++ [r], log').

(** What the handler answers and the sends it attempted, in order. *)
Record Outcome : Type := mkOutcome {
  reply : Http.Reply;
  results : option (list Result);
  sent : list Sent
}.

(** POST /publish (lines 152-220). *)
Definition publish (net : Network) (s : Session.State) (b : Body) : Outcome :=
  if negb (Session.sock_and_isConnected s) then
    mkOutcome (Http.mkReply 400 false "WhatsApp not connected") None []
  else if negb (truthy (mode b)) || negb (truthy (caption b)) then
    mkOutcome (Http.mkReply 400 false "Missing required fields") None []
  else
    let acc : list Result * list Sent := ([], []) in
    let acc :=
      match recipients b with
      | Some ((_ :: _) as rs) =>
          if mode_is "numbers" b then send_numbers net b rs (fst acc) (snd acc) else acc
      | _ => acc
      end in
    let acc :=
      if mode_is "group" b && truthy (groupId b)
      then send_group net b (fst acc) (snd acc) else acc in
    let allSuccess := forallb success (fst acc) in
    mkOutcome
      (Http.mkReply 200 allSuccess
         (if allSuccess then "Messages sent successfully" else "Some messages failed"))
      (Some (fst acc)) (snd acc).

(** The reply is one of the two failures that come before any send. *)
Definition NotConnected (o : Outcome) : Prop :=
  reply o = Http.mkReply 400 false "WhatsApp not connected".

Definition InvalidRequest (o : Outcome) : Prop :=
  reply o = Http.mkReply 400 false "Missing required fields".

(** ** Notions used to state the properties *)

(** The calls a direct-mode request makes, in the order of its recipients. *)
Definition sends (b : Body) (rs : list string) : list Sent :=
  map (fun r => mkSent (Phone.formatPhoneNumber r) (message b)) rs.

(** The result recorded for recipient [r] when the call for it is made
    after the calls [log]. *)
Definition result_of (net : Network) (b : Body) (log : list Sent) (r : string) : Result :=
  match net log (mkSent (Phone.formatPhoneNumber r) (message b)) with
  | Resolved => mkResult r true None
  | Rejected e => mkResult r false (Some e)
  end.

(** The request names no target for its mode: no recipient in direct mode,
    no group in group mode (a mode that is neither has no target at all). *)
Definition no_target (b : Body) : Prop :=
  (mode_is "numbers" b = true -> recipients b = None \/ recipients b = Some []) /\
  (mode_is "group" b = true -> truthy (groupId b) = false).

(** A network on which every call resolves, and one on which exactly the
    second call of a run rejects. *)
Definition reliable : Network := fun _ _ => Resolved.

Definition second_fails : Network :=
  fun log _ => if Nat.eqb (List.length log) 1 then Rejected "timed out" else Resolved.

(** Example requests. *)
Definition three_numbers : Body :=
  mkBody (Some "numbers") (Some ["+44 123-456-789"; "0044 20 7946 0000"; "15550100"])
         None (Some "hi") None None.

Definition group_picture : Body :=
  mkBody (Some "group") None (Some "g1") (Some "hi") (Some "http://x/y.png") None.

Definition no_recipients : Body :=
  mkBody (Some "numbers") (Some []) None (Some "hi") None None.

End Dispatch.

From Stdlib Require Import Permutation.

(** * The read-only routes *)

Module Control.

(** A JSON body of GET /status or GET /qr-code; a member the handler does
    not write is [None]. *)
Record Json : Type := mkJson {
  success : bool;
  connected : option bool;
  status : option Session.Status;
  qr : option string;
  message : option string
}.

(** GET /status (lines 106-112). *)
Definition get_status (s : Session.State) : Json :=
  mkJson true (Some (Session.isConnected s)) (Some (Session.connectionStatus s))
         None None.

(** GET /qr-code (lines 95-103). *)
Definition get_qr_code (s : Session.State) : Json :=
  if truthy (Session.qrCodeData s) then
    mkJson true None (Some Session.qr_ready) (Session.qrCodeData s) None
  else if Session.isConnected s then
    mkJson true None (Some Session.connected) None (Some "Already connected")
  else
    mkJson false None (Some (Session.connectionStatus s)) None
           (Some "No QR code available").

End Control.

(** * GET /groups *)

Module Directory.

(** A value of the object that [sock.groupFetchAllParticipating()] resolves
    to: the members the handler reads. *)
Module Metadata.
Record t : Type := mk {
  id : string;
  subject : string;
  participants : list string
}.
End Metadata.

(** An element of [groupList] (lines 122-126). *)
Record Entry : Type := mkEntry {
  id : string;
  name : string;
  participants : nat
}.

(** How the awaited call settles: with the values of the object, in the
    order of [Object.values], or with an error. *)
Inductive Fetched : Type :=
| Groups (values : list Metadata.t)
| Failed (message : string).

(** What the handler answers, and whether it called the transport. *)
Record Outcome : Type := mkOutcome {
  code : nat;
  success : bool;
  message : option string;
  groups : option (list Entry);
  called : bool
}.

(** Lines 122-126. *)
Definition groupList (values : list Metadata.t) : list Entry :=
  map (fun group =>
         mkEntry (Metadata.id group) (Metadata.subject group)
                 (List.length (Metadata.participants group)))
      values.

(** GET /groups (lines 115-133). *)
Definition get_groups (fetch : Fetched) (s : Session.State) : Outcome :=
  if negb (Session.sock_and_isConnected s) then
    mkOutcome 400 false (Some "WhatsApp not connected") None false
  else
    match fetch with
    | Groups values => mkOutcome 200 true None (Some (groupList values)) true
    | Failed m => mkOutcome 500 false (Some m) None true
    end.

End Directory.

(** * Notions used to state further properties *)

Module Runs.

Import Session.

(** The labels of POST /logout. *)
Definition is_logout (l : Label) : bool :=
  match l with
  | LogoutRequest | LogoutSettled _ => true
  | _ => false
  end.

Definition is_socket_made (l : Label) : bool :=
  match l with
  | SocketMade => true
  | _ => false
  end.

Definition is_creds_update (l : Label) : bool :=
  match l with
  | CredsUpdate _ _ => true
  | _ => false
  end.

(** The handle, when there is one, is the transport created last; the live
    transports are distinct and were all created. *)
Definition handles_ok (s : State) : Prop :=
  (forall h, sock s = Some h -> S h = sockets s) /\
  NoDup (live s) /\
  live_bound s.

(** Every pending reconnect timer has the delay of line 50. *)
Definition timers_fixed (s : State) : Prop :=
  Forall (fun d => d = reconnect_delay) (timers s).

(** Transport [k] closes for [reason], its timer expires, and the connect
    sequence it starts creates the next transport. *)
Definition reconnect_cycle (reason : option Z) (k : Handle) : list Label :=
  [ConnectionUpdate k (closed reason); TimerFires; SocketMade].

(** [n] such cycles, on transports 0, 1, ..., [n - 1] in turn. *)
Definition reconnects (reason : option Z) (n : nat) : list Label :=
  flat_map (reconnect_cycle reason) (seq 0 n).

(** The process started with credentials [c] on disk, once its automatic
    connect sequence has created transport 0. *)
Definition resumed (c : Creds) : State :=
  exec [SocketMade] (init (Some c)).

(** The results of the loop of lines 168-188 for the recipients [rs], the
    first call being made after the calls [log]. *)
Fixpoint outcomes (net : Dispatch.Network) (b : Dispatch.Body) (log : list Dispatch.Sent)
         (rs : list string) : list Dispatch.Result :=
  match rs with
  | [] => []
  | r :: rest =>
      Dispatch.result_of net b log r
      :: outcomes net b
           (log ++ [Dispatch.mkSent (Phone.formatPhoneNumber r) (Dispatch.message b)]) rest
  end.

(** The network as it behaves after the calls [before]. *)
Definition after (net : Dispatch.Network) (before : list Dispatch.Sent) : Dispatch.Network :=
  fun log m => net (before ++ log) m.

(** A network on which the settlement of a call does not depend on the
    calls made before it. *)
Definition history_free (net : Dispatch.Network) : Prop :=
  forall log1 log2 m, net log1 m = net log2 m.

(** The body [b] with [rs] as its [recipients] member. *)
Definition with_recipients (b : Dispatch.Body) (rs : list string) : Dispatch.Body :=
  Dispatch.mkBody (Dispatch.mode b) (Some rs) (Dispatch.groupId b) (Dispatch.caption b)
                  (Dispatch.mediaUrl b) (Dispatch.mediaType b).



(** In the run [tr] from [s] the credentials [c] are the last ones saved:
    a transport that was live reported them, and no report made after that
    one was handled. *)
Definition last_saved (tr : list Label) (s : State) (c : Creds) : Prop :=
  exists tr1 h tr2,
    tr = tr1 ++ CredsUpdate h c :: tr2 /\
    is_live h (exec tr1 s) = true /\
    forall tr2a h' c' tr2b,
      tr2 = tr2a ++ CredsUpdate h' c' :: tr2b ->
      is_live h' (exec (tr1 ++ CredsUpdate h c :: tr2a) s) = false.

(** No report of credentials was handled in the run [tr] from [s]. *)
Definition none_saved (tr : list Label) (s : State) : Prop :=
  forall tr1 h c tr2,
    tr = tr1 ++ CredsUpdate h c :: tr2 -> is_live h (exec tr1 s) = false.

End Runs.

(** * Properties of the address normalization *)

Section PhoneFacts.

Import Phone.

Lemma replace_nondigits_filter s : replace_nondigits s = keep_digits s.
Proof.
  unfold keep_digits.
  induction s as [|c s IH]; simpl; [reflexivity|].
  destruct (is_digit c); simpl; now rewrite IH.
Qed.

Lemma replace_nondigits_all_digits s : all_digits (replace_nondigits s) = true.
Proof.
  induction s as [|c s IH]; simpl; [reflexivity|].
  destruct (is_digit c) eqn:E; simpl; [now rewrite E|assumption].
Qed.

Lemma all_digits_substring_from n s :
  all_digits s = true -> all_digits (substring_from n s) = true.
Proof.
  revert s; induction n as [|n IH]; intros s H; [exact H|].
  destruct s as [|c s]; simpl; [reflexivity|].
  simpl in H. apply andb_true_iff in H. now apply IH.
Qed.

Lemma startsWith_00 s :
  (if startsWith "00" s then substring_from 2 s else s) = drop_international_prefix s.
Proof.
  unfold startsWith.
  destruct s as [|a [|b s]]; cbn [String.prefix drop_international_prefix].
  - reflexivity.
  - now destruct (ascii_dec "0" a).
  - destruct (ascii_dec "0" a) as [<-|Ha].
    + destruct (ascii_dec "0" b) as [<-|Hb].
      * now destruct s.
      * apply not_eq_sym, Ascii.eqb_neq in Hb. now rewrite Hb.
    + apply not_eq_sym, Ascii.eqb_neq in Ha. now rewrite Ha.
Qed.

Lemma plus_free s : all_digits s = true -> replace_leading_plus s = s /\ strip_leading_plus s = s.
Proof.
  destruct s as [|c s]; simpl; [auto|].
  intros H. apply andb_true_iff in H. destruct H as [Hc _].
  destruct (Ascii.eqb_spec c "+") as [->|_]; [discriminate Hc|auto].
Qed.

Lemma all_digits_drop_prefix s :
  all_digits s = true -> all_digits (drop_international_prefix s) = true.
Proof.
  intros H. rewrite <- startsWith_00.
  destruct (startsWith "00" s); [now apply all_digits_substring_from|exact H].
Qed.

(** C6. [formatPhoneNumber] is a total function on strings and does what
    the specified steps say: it keeps the digits, drops one leading "00",
    strips leading plus signs (of which none can remain) and appends the
    address suffix.  "0044123456789" and "+44 123-456-789" both give
    "44123456789@s.whatsapp.net", and the empty string gives
    "@s.whatsapp.net". *)
Theorem formatPhoneNumber_normalizes :
  (forall number, formatPhoneNumber number = normalize_spec number) /\
  (forall number,
      exists digits,
        formatPhoneNumber number = (digits ++ suffix)%string /\
        all_digits digits = true /\
        digits = drop_international_prefix (keep_digits number)) /\
  formatPhoneNumber "0044123456789" = ("44123456789" ++ suffix)%string /\
  formatPhoneNumber "+44 123-456-789" = ("44123456789" ++ suffix)%string /\
  formatPhoneNumber "" = ("" ++ suffix)%string /\
  suffix = "@s.whatsapp.net".
Proof.
  assert (E : forall number,
             formatPhoneNumber number
             = (drop_international_prefix (keep_digits number) ++ suffix)%string
             /\ all_digits (drop_international_prefix (keep_digits number)) = true).
  { intros number. unfold formatPhoneNumber.
    rewrite startsWith_00, replace_nondigits_filter.
    assert (D : all_digits (drop_international_prefix (keep_digits number)) = true).
    { rewrite <- replace_nondigits_filter.
      apply all_digits_drop_prefix, replace_nondigits_all_digits. }
    split; [|exact D].
    now rewrite (proj1 (plus_free _ D)). }
  repeat split.
  - intros number. unfold normalize_spec.
    destruct (E number) as [-> D]. now rewrite (proj2 (plus_free _ D)).
  - intros number. exists (drop_international_prefix (keep_digits number)).
    destruct (E number) as [-> D]. auto.
Qed.

End PhoneFacts.

(** * Properties of the session manager *)

Ltac flags :=
  unfold Session.flags_ok, Session.pairing_code_phase, Session.connected_flag,
    Session.pairing_code_truthy;
  simpl; repeat split; intros; try congruence; try tauto.

Section SessionFacts.

Import Session.

Lemma truthy_some (v : option string) : truthy v = true -> v <> None.
Proof. destruct v; [discriminate|discriminate]. Qed.

Lemma Status_eqb_eq a b : Status_eqb a b = true <-> a = b.
Proof. destruct a, b; simpl; split; congruence. Qed.

Lemma exec_app tr1 tr2 s : exec (tr1 ++ tr2) s = exec tr2 (exec tr1 s).
Proof. unfold exec. apply fold_left_app. Qed.

Lemma reachable_init auth : reachable (init auth).
Proof. exists auth, []. reflexivity. Qed.

Lemma reachable_step l s : reachable s -> reachable (step l s).
Proof.
  intros (auth & tr & ->). exists auth, (tr ++ [l]). now rewrite exec_app.
Qed.

Lemma reachable_exec tr s : reachable s -> reachable (exec tr s).
Proof.
  revert s. induction tr as [|l tr IH]; intros s H; [exact H|].
  simpl. apply IH. now apply reachable_step.
Qed.

(** A property that holds at start and is kept by every label holds in
    every reachable state. *)
Lemma reachable_ind (P : State -> Prop) :
  (forall auth, P (init auth)) ->
  (forall l s, P s -> P (step l s)) ->
  forall s, reachable s -> P s.
Proof.
  intros Hinit Hstep s (auth & tr & ->).
  induction tr as [|l tr IH] using rev_ind; [apply Hinit|].
  rewrite exec_app. simpl. now apply Hstep.
Qed.

Lemma exec_keeps (P : State -> Prop) :
  (forall l s, P s -> P (step l s)) ->
  forall tr s, P s -> P (exec tr s).
Proof.
  intros Hstep tr. induction tr as [|l tr IH]; intros s H; [exact H|].
  simpl. apply IH. now apply Hstep.
Qed.

Lemma flags_on_connection_update h u s :
  flags_ok s -> flags_ok (on_connection_update h u s).
Proof.
  intros (Hq & Hc & Ht).
  unfold on_connection_update, on_qr.
  destruct (truthy (qr u)) eqn:Q.
  - pose proof (truthy_some _ Q) as Q'.
    destruct (connection u) as [[]|]; flags.
  - destruct (connection u) as [[]|]; flags; try apply Hq; try apply Hc; try apply Ht; auto.
Qed.

Lemma flags_initialize_begin s : flags_ok s -> flags_ok (initialize_begin s).
Proof. intros _. flags. Qed.

Lemma flags_logout_end s : flags_ok (logout_end s).
Proof. flags. Qed.

Lemma flags_makeSocket s : flags_ok s -> flags_ok (makeSocket s).
Proof. intros H. exact H. Qed.

Lemma flags_step l s : flags_ok s -> flags_ok (step l s).
Proof.
  intros H. destruct l as [h u|h c| | | | |a]; simpl.
  - destruct (is_live h s); [now apply flags_on_connection_update|exact H].
  - destruct (is_live h s); exact H.
  - destruct (timers s); exact H.
  - destruct (connects s); exact H.
  - destruct (sock_and_isConnected s); [exact H|].
    exact (flags_initialize_begin s H).
  - destruct (sock s); [exact H|apply flags_logout_end].
  - destruct (loggingOut s); [exact H|].
    destruct a; [apply flags_logout_end|exact H].
Qed.

Lemma flags_init auth : flags_ok (init auth).
Proof. destruct auth; flags. Qed.

Lemma flags_reachable s : reachable s -> flags_ok s.
Proof. apply reachable_ind; [apply flags_init|apply flags_step]. Qed.

Lemma flags_exec tr s : flags_ok s -> flags_ok (exec tr s).
Proof. apply exec_keeps, flags_step. Qed.

Lemma pairing_code_phase_step l s :
  pairing_code_phase s -> pairing_code_phase (step l s).
Proof.
  intros H. destruct l as [h u|h c| | | | |a]; simpl.
  - destruct (is_live h s); [|exact H].
    unfold on_connection_update, on_qr.
    destruct (truthy (qr u)) eqn:Q.
    + pose proof (truthy_some _ Q) as Q'.
      destruct (connection u) as [[]|]; flags.
    + destruct (connection u) as [[]|]; flags; apply H; auto.
  - destruct (is_live h s); exact H.
  - destruct (timers s); exact H.
  - destruct (connects s); exact H.
  - destruct (sock_and_isConnected s); [exact H|flags].
  - destruct (sock s); [exact H|flags].
  - destruct (loggingOut s); [exact H|].
    destruct a; [flags|exact H].
Qed.

Lemma pairing_code_phase_exec tr s :
  pairing_code_phase s -> pairing_code_phase (exec tr s).
Proof. apply exec_keeps, pairing_code_phase_step. Qed.

Lemma pairing_code_phase_reachable s : reachable s -> pairing_code_phase s.
Proof. intros H. apply flags_reachable in H. apply H. Qed.

(** ** The polling loop *)

Lemma advance_keeps (P : State -> Prop) :
  (forall l s, P s -> P (step l s)) ->
  forall env d a s, P s -> P (advance env a d s).
Proof.
  intros Hstep env d. induction d as [|d IH]; intros a s H; [exact H|].
  simpl. apply IH. now apply exec_keeps.
Qed.

(** With more fuel than tests left, the loop ends: it stops at the first
    test of line 76 that fails, after at most [max_attempts] sleeps. *)
Lemma wait_for_qr_spec fuel env :
  forall a s,
    max_attempts - a < fuel ->
    exists d,
      wait_for_qr fuel env a s = Some (a + d, advance env a d s) /\
      keeps_waiting (a + d) (advance env a d s) = false /\
      (forall i, i < d -> keeps_waiting (a + i) (advance env a i s) = true).
Proof.
  induction fuel as [|fuel IH]; intros a s Hf; [lia|].
  cbn [wait_for_qr]. change (negb (truthy (qrCodeData s))
         && (a <? max_attempts)%nat
         && negb (Status_eqb (connectionStatus s) connected))%bool
    with (keeps_waiting a s).
  destruct (keeps_waiting a s) eqn:K.
  - assert (La : a < max_attempts).
    { unfold keeps_waiting in K.
      apply andb_true_iff in K. destruct K as [K _].
      apply andb_true_iff in K. destruct K as [_ K].
      now apply Nat.ltb_lt in K. }
    destruct (IH (S a) (exec (env (S a)) s)) as (d & E & Kd & Ki); [lia|].
    exists (S d). rewrite Nat.add_succ_r. cbn [advance]. repeat split; auto.
    intros [|i] Hi.
    + now rewrite Nat.add_0_r.
    + rewrite Nat.add_succ_r. cbn [advance]. apply (Ki i). lia.
  - exists 0. rewrite Nat.add_0_r. cbn [advance]. repeat split; auto.
    intros i Hi. lia.
Qed.

Lemma keeps_waiting_true a s :
  keeps_waiting a s = true <->
  truthy (qrCodeData s) = false /\ a < max_attempts /\ connectionStatus s <> connected.
Proof.
  unfold keeps_waiting. rewrite !andb_true_iff, !negb_true_iff, Nat.ltb_lt.
  split; intros [[A B] C] || intros (A & B & C); repeat split; auto.
  - intros E. apply Status_eqb_eq in E. congruence.
  - destruct (Status_eqb (connectionStatus s) connected) eqn:E; [|reflexivity].
    apply Status_eqb_eq in E. contradiction.
Qed.

Lemma initialize_keeps (P : State -> Prop) :
  (forall l s, P s -> P (step l s)) ->
  (forall s, P s -> P (initialize_begin s)) ->
  (forall s, P s -> P (makeSocket s)) ->
  forall fuel conn env s s' a,
    P s -> initialize fuel conn env s = Some (s', a) -> P s'.
Proof.
  intros Hstep Hbegin Hmake fuel conn env s s' a H.
  unfold initialize.
  destruct (sock_and_isConnected s); [intros [= <- _]; exact H|].
  assert (H0 : P (exec (env 0) (initialize_begin s))).
  { now apply exec_keeps, Hbegin. }
  destruct conn as [|m]; [|intros [= <- _]; exact H0].
  assert (G : forall fuel k s1, P s1 ->
              forall n s2, wait_for_qr fuel env k s1 = Some (n, s2) -> P s2).
  { clear - Hstep. intros f. induction f as [|f IH]; intros k s1 H1 n s2 E.
    - discriminate.
    - cbn [wait_for_qr] in E.
      destruct (negb (truthy (qrCodeData s1)) && (k <? max_attempts)%nat
                && negb (Status_eqb (connectionStatus s1) connected))%bool.
      + eapply IH; [|exact E]. now apply exec_keeps.
      + injection E as _ <-. exact H1. }
  destruct (wait_for_qr fuel env 0 (makeSocket (exec (env 0) (initialize_begin s))))
    as [[n s2]|] eqn:E; [|discriminate].
  intros [= <- _]. eapply G; [|exact E]. now apply Hmake.
Qed.

(** ** The state invariant *)

(** C1, counterexample.  A first POST /initialize, then a close event with
    a recoverable reason: the phase is Disconnected while [sock] still holds
    the closed transport.  And while the first connect sequence is awaited
    the phase is Initializing with [sock] still null. *)
Lemma handle_phase_fails :
  (let s := exec [InitializeRequest; SocketMade; ConnectionUpdate 0 (closed (Some 428%Z))]
                 (init None) in
   sock s = Some 0 /\ connectionStatus s = disconnected /\
   ~ (pairing_code_phase s /\ handle_phase s)) /\
  (let s := exec [InitializeRequest] (init None) in
   sock s = None /\ connectionStatus s = initializing /\
   ~ (pairing_code_phase s /\ handle_phase s)).
Proof.
  split; cbv zeta; (split; [reflexivity|split; [reflexivity|]]).
  - intros [_ [H _]]. apply H; [discriminate|reflexivity].
  - intros [_ [_ H]]. apply H; [discriminate|reflexivity].
Qed.

(** C1, as amended.  In every reachable state the pairing code is non-null
    exactly when the phase is PairingReady, and every piece of code that
    writes the state (the transport callbacks, the timer, the connect
    sequence, POST /initialize, POST /logout) keeps it so.  The transport
    handle does not follow the phase: it changes only when a connect
    sequence creates a transport, which it then holds, and when a logout
    completes, which resets it to null. *)
Theorem pairing_code_invariant :
  (forall s, reachable s -> pairing_code_phase s) /\
  (forall l s, pairing_code_phase s -> pairing_code_phase (step l s)) /\
  (forall fuel conn env s s' a,
      pairing_code_phase s ->
      initialize fuel conn env s = Some (s', a) -> pairing_code_phase s') /\
  (forall teardown during s,
      pairing_code_phase s -> pairing_code_phase (fst (logout teardown during s))) /\
  (forall l s,
      sock (step l s) = sock s \/
      (l = SocketMade /\ sock (step l s) = Some (sockets s)) \/
      ((l = LogoutRequest \/ l = LogoutSettled Resolved) /\ sock (step l s) = None)).
Proof.
  split; [exact pairing_code_phase_reachable|].
  split; [exact pairing_code_phase_step|].
  split; [|split].
  - intros fuel conn env s s' a H E.
    refine (initialize_keeps pairing_code_phase pairing_code_phase_step
              _ _ fuel conn env s s' a H E); intros; [flags|assumption].
  - intros teardown during s H. unfold logout.
    destruct (sock s); [destruct teardown|]; simpl.
    + flags.
    + now apply pairing_code_phase_exec.
    + flags.
  - intros l s. destruct l as [h u|h c| | | | |a]; simpl.
    + left. destruct (is_live h s); [|reflexivity].
      unfold on_connection_update, on_qr.
      destruct (truthy (qr u)); destruct (connection u) as [[]|]; reflexivity.
    + left. now destruct (is_live h s).
    + left. now destruct (timers s).
    + destruct (connects s); [now left|right; left; auto].
    + left. now destruct (sock_and_isConnected s).
    + destruct (sock s) eqn:E; [now left|right; right; auto].
    + destruct (loggingOut s); [now left|].
      destruct a; [right; right; auto|now left].
Qed.

Lemma pairing_code_invariant_witness :
  let s := exec [InitializeRequest; SocketMade;
                 ConnectionUpdate 0 (mkUpdate None None (Some "2@k9"))] (init None) in
  qrCodeData s = Some "2@k9" /\ connectionStatus s = qr_ready /\
  pairing_code_phase s /\
  pairing_code_phase (step (ConnectionUpdate 0 opened) s) /\
  pairing_code_phase (fst (logout Resolved [] s)).
Proof.
  cbv zeta.
  assert (R : reachable (exec [InitializeRequest; SocketMade;
                 ConnectionUpdate 0 (mkUpdate None None (Some "2@k9"))] (init None))).
  { exists None. eexists. reflexivity. }
  pose proof (proj1 pairing_code_invariant _ R) as P.
  split; [reflexivity|]. split; [reflexivity|]. split; [exact P|]. split.
  - exact (proj1 (proj2 pairing_code_invariant) _ _ P).
  - exact (proj1 (proj2 (proj2 (proj2 pairing_code_invariant))) Resolved [] _ P).
Defined.

(** ** Close events *)

Lemma shouldReconnect_false u :
  shouldReconnect u = false <-> statusCode u = Some loggedOut.
Proof.
  unfold shouldReconnect. destruct (statusCode u) as [c|]; [|split; discriminate].
  rewrite negb_false_iff, Z.eqb_eq. split; congruence.
Qed.

(** C3, counterexample.  A connected session with persisted credentials
    receives a close event whose reason is [loggedOut]: the phase becomes
    Disconnected and no timer is set, but the credentials are still on
    disk. *)
Lemma terminal_close_keeps_credentials :
  let s' := step (ConnectionUpdate 0 (closed (Some loggedOut))) paired in
  authDir paired = Some "creds" /\
  connectionStatus s' = disconnected /\
  timers s' = [] /\
  authDir s' = Some "creds" /\
  authDir s' <> None.
Proof. cbv zeta. repeat split. discriminate. Qed.

(** C3, as amended.  On a close event the flags are reset (phase
    Disconnected, pairing code cleared, connected flag off) whatever the
    reason, and the callback leaves the persisted credentials and the handle
    as they are.  Exactly the reason [loggedOut] is terminal: no reconnect
    is scheduled.  For every other reason, an absent one included, one timer
    of 3000 ms is set; when it fires the connect sequence is started again,
    it creates a new transport, and the credentials are still those that
    were persisted. *)
Theorem close_classification :
  forall h u s,
    connection u = Some close ->
    let s' := on_connection_update h u s in
    connectionStatus s' = disconnected /\
    qrCodeData s' = None /\
    isConnected s' = false /\
    authDir s' = authDir s /\
    sock s' = sock s /\
    connects s' = connects s /\
    (shouldReconnect u = false <-> statusCode u = Some loggedOut) /\
    (statusCode u = Some loggedOut -> timers s' = timers s) /\
    (statusCode u <> Some loggedOut ->
       timers s' = timers s ++ [reconnect_delay] /\
       reconnect_delay = 3000 /\
       (timers s = [] ->
          let s1 := step TimerFires s' in
          let s2 := step SocketMade s1 in
          timers s1 = [] /\ connects s1 = S (connects s) /\ authDir s1 = authDir s /\
          sock s2 = Some (sockets s) /\ connects s2 = connects s /\
          authDir s2 = authDir s)).
Proof.
  intros h u s C. unfold on_connection_update. rewrite C. cbv zeta.
  assert (A : authDir (on_qr u s) = authDir s /\ sock (on_qr u s) = sock s /\
              connects (on_qr u s) = connects s /\ timers (on_qr u s) = timers s).
  { unfold on_qr. destruct (truthy (qr u)); auto. }
  destruct A as (A1 & A2 & A3 & A4).
  split; [reflexivity|]. split; [reflexivity|]. split; [reflexivity|].
  split; [exact A1|]. split; [exact A2|]. split; [exact A3|].
  split; [apply shouldReconnect_false|].
  split.
  - intros L. apply shouldReconnect_false in L. simpl. now rewrite L.
  - intros L. rewrite <- shouldReconnect_false in L.
    apply not_false_is_true in L.
    assert (T : timers (retire h (on_close u (on_qr u s))) = timers s ++ [reconnect_delay]).
    { simpl. now rewrite L, A4. }
    split; [exact T|]. split; [reflexivity|].
    intros E. simpl. rewrite L, A4, E. simpl. rewrite A1, A3.
    assert (A5 : sockets (on_qr u s) = sockets s)
      by (unfold on_qr; now destruct (truthy (qr u))).
    rewrite A5. auto 10.
Qed.

Lemma close_classification_witness :
  timers (on_connection_update 0 (closed (Some loggedOut)) paired) = timers paired /\
  timers (on_connection_update 0 (closed None) paired) = timers paired ++ [3000] /\
  authDir (on_connection_update 0 (closed (Some 428%Z)) paired) = authDir paired.
Proof.
  split; [|split].
  - pose proof (close_classification 0 (closed (Some loggedOut)) paired eq_refl) as H.
    cbv zeta in H. decompose [and] H. auto.
  - pose proof (close_classification 0 (closed None) paired eq_refl) as H.
    cbv zeta in H. decompose [and] H.
    match goal with K : _ <> _ -> _ |- _ => apply K end. discriminate.
  - exact (proj1 (proj2 (proj2 (proj2
             (close_classification 0 (closed (Some 428%Z)) paired eq_refl))))).
Defined.

(** ** POST /logout *)

(** C4, counterexample.  On a connected session whose [sock.logout()]
    rejects, the caller gets the failure, and the handle, the credentials
    and the phase are what they were. *)
Lemma logout_fails_when_teardown_rejects :
  logout (Rejected "Connection Closed") [] paired
  = (paired, Http.mkReply 500 false "Connection Closed") /\
  sock paired = Some 0 /\
  authDir paired = Some "creds" /\
  connectionStatus paired = connected.
Proof. repeat split. Qed.

(** C4, as amended.  When there is no handle, or when the transport's
    teardown resolves, POST /logout answers success and leaves the handle
    null, the credentials deleted, the pairing code cleared and the phase
    Disconnected; a logout that follows it succeeds again, whatever the
    transport would do, and changes nothing.  When the teardown of an
    existing handle rejects, the caller gets a failure with the error's
    message and the handler writes nothing. *)
Theorem logout_contract :
  forall teardown during s,
    (sock s = None \/ teardown = Resolved ->
       let s' := fst (logout teardown during s) in
       snd (logout teardown during s) = Http.mkReply 200 true "Logged out successfully" /\
       sock s' = None /\ authDir s' = None /\ connectionStatus s' = disconnected /\
       qrCodeData s' = None /\ isConnected s' = false /\
       forall teardown2 during2,
         logout teardown2 during2 s'
         = (s', Http.mkReply 200 true "Logged out successfully")) /\
    (forall m,
        sock s <> None -> teardown = Rejected m ->
        logout teardown during s = (exec during s, Http.mkReply 500 false m)).
Proof.
  intros teardown during s. split.
  - intros H. unfold logout. destruct (sock s) as [h|] eqn:E.
    + destruct H as [H| ->]; [discriminate|]. cbv zeta. simpl. auto 10.
    + cbv zeta. simpl. auto 10.
  - intros m H ->. unfold logout. destruct (sock s); [reflexivity|congruence].
Qed.

Lemma logout_contract_witness :
  snd (logout Resolved [] paired) = Http.mkReply 200 true "Logged out successfully" /\
  sock (fst (logout Resolved [] paired)) = None /\
  logout (Rejected "boom") [] (fst (logout Resolved [] paired))
  = (fst (logout Resolved [] paired), Http.mkReply 200 true "Logged out successfully") /\
  logout (Rejected "boom") [] paired = (paired, Http.mkReply 500 false "boom").
Proof.
  pose proof (proj1 (logout_contract Resolved [] paired) (or_intror eq_refl)) as H.
  cbv zeta in H. destruct H as (H1 & H2 & _ & _ & _ & _ & H3).
  split; [exact H1|]. split; [exact H2|]. split; [apply H3|].
  apply (proj2 (logout_contract (Rejected "boom") [] paired) "boom");
    [discriminate|reflexivity].
Defined.

(** ** POST /initialize *)

Lemma connected_flag_step l s : flags_ok s -> connected_flag (step l s).
Proof. intros H. apply (flags_step l) in H. apply H. Qed.

(** C7, counterexample.  The handler also returns in a fourth way: when its
    connect sequence raises, it answers the failure at once, with no
    pairing code, no connection and no sleep.  And being connected is not
    always what ends the wait: in a reachable state where the connected flag
    is set while the handle is null, the handler sleeps the 20 times before
    it answers 'connected'. *)
Lemma initialize_fourth_outcome :
  (initialize 21 (Rejected "EACCES") quiet (init None)
   = Some (initialize_begin (init None),
           mkAnswer (Http.mkReply 500 false "EACCES") None 0) /\
   isConnected (initialize_begin (init None)) = false /\
   qrCodeData (initialize_begin (init None)) = None) /\
  (sock flag_without_handle = None /\
   isConnected flag_without_handle = true /\
   option_map snd (initialize 21 Resolved quiet flag_without_handle)
   = Some (mkAnswer (Http.mkReply 200 true "Already authenticated") (Some connected) 20)).
Proof. repeat split. Qed.

(** C7, as amended.  POST /initialize returns in one of four ways.  It
    answers at once when a handle is connected, and at once with a failure
    carrying the error's message when its connect sequence raises.
    Otherwise it answers after [n] sleeps of 500 ms, where [n] is the first
    test at which a pairing code or the phase Connected is seen, and 20 (that
    is 10 s) when there is none; the connected flag alone does not end the
    wait.  The answer is then 'connected' exactly when the connected flag is
    set, 'qr_ready' exactly when it is not and a pairing code is there, and
    the failure exactly when there is neither, which happens only after the
    20 sleeps.  After creating its transport the handler writes nothing, so
    on the failure the attempt is as the environment left it: any transport
    still live can open later and bring the phase to Connected.  In an
    environment where nothing happens the failure comes after the 20 sleeps
    and the transport made by the call is still the handle and live. *)
Theorem initialize_contract :
  forall env s,
    reachable s ->
    (sock_and_isConnected s = true ->
       forall conn,
         initialize 21 conn env s
         = Some (s, mkAnswer (Http.mkReply 200 true "Already connected") (Some connected) 0)) /\
    (sock_and_isConnected s = false ->
       (forall m,
           initialize 21 (Rejected m) env s
           = Some (exec (env 0) (initialize_begin s),
                   mkAnswer (Http.mkReply 500 false m) None 0)) /\
       let s0 := makeSocket (exec (env 0) (initialize_begin s)) in
       exists n,
         let s' := advance env 0 n s0 in
         let a := initialize_reply n s' in
         initialize 21 Resolved env s = Some (s', a) /\
         sleeps a = n /\ n <= max_attempts /\ n * poll_interval <= 10 * 1000 /\
         (forall i, i < n ->
            truthy (qrCodeData (advance env 0 i s0)) = false /\
            connectionStatus (advance env 0 i s0) <> connected) /\
         (n < max_attempts ->
            truthy (qrCodeData s') = true \/ connectionStatus s' = connected) /\
         (status a = Some connected <-> isConnected s' = true) /\
         (status a = Some qr_ready <->
            isConnected s' = false /\ truthy (qrCodeData s') = true) /\
         (Http.success (reply a) = false <->
            isConnected s' = false /\ truthy (qrCodeData s') = false) /\
         (Http.success (reply a) = true ->
            (isConnected s' = true /\ status a = Some connected) \/
            (truthy (qrCodeData s') = true /\ status a = Some qr_ready)) /\
         (Http.success (reply a) = false ->
            n = max_attempts /\ n * poll_interval = 10 * 1000 /\
            reply a = Http.mkReply 500 false "Failed to generate QR code" /\
            truthy (qrCodeData s') = false /\ isConnected s' = false /\
            forall h, is_live h s' = true ->
              let s'' := step (ConnectionUpdate h opened) s' in
              isConnected s'' = true /\ connectionStatus s'' = connected /\
              sock s'' = sock s' /\ live s'' = live s') /\
         ((forall k, env k = []) -> isConnected s = false ->
            n = max_attempts /\ s' = s0 /\ Http.success (reply a) = false /\
            sock s' = Some (sockets s) /\ is_live (sockets s) s' = true)).
Proof.
  intros env s R. split.
  - intros C conn. unfold initialize. now rewrite C.
  - intros C. split.
    { intros m. unfold initialize. now rewrite C. }
    cbv zeta.
    set (s0 := makeSocket (exec (env 0) (initialize_begin s))).
    assert (F0 : flags_ok s0).
    { unfold s0. apply flags_makeSocket, flags_exec, flags_initialize_begin.
      now apply flags_reachable. }
    destruct (wait_for_qr_spec 21 env 0 s0) as (n & E & K & Ki);
      [unfold max_attempts; lia|].
    cbn [Nat.add] in E, K, Ki.
    exists n.
    assert (F : flags_ok (advance env 0 n s0)).
    { apply (advance_keeps flags_ok flags_step), F0. }
    assert (Ln : n <= max_attempts).
    { destruct n as [|n]; [lia|].
      specialize (Ki n (Nat.lt_succ_diag_r n)).
      apply keeps_waiting_true in Ki. lia. }
    assert (Kn : n < max_attempts ->
                 truthy (qrCodeData (advance env 0 n s0)) = true
                 \/ connectionStatus (advance env 0 n s0) = connected).
    { intros L. unfold keeps_waiting in K.
      apply Nat.ltb_lt in L. rewrite L, andb_true_r in K.
      apply andb_false_iff in K. rewrite !negb_false_iff in K.
      destruct K as [K|K]; [now left|right; now apply Status_eqb_eq]. }
    split; [unfold initialize; rewrite C; fold s0; now rewrite E|].
    split; [unfold initialize_reply;
            destruct (isConnected _); [|destruct (truthy _)]; reflexivity|].
    split; [exact Ln|].
    split; [unfold max_attempts, poll_interval in *; lia|].
    split; [intros i Hi; specialize (Ki i Hi);
            apply keeps_waiting_true in Ki; tauto|].
    split; [exact Kn|].
    split; [|split; [|split; [|split; [|split]]]].
    + unfold initialize_reply.
      destruct (isConnected (advance env 0 n s0)); [split; reflexivity|].
      destruct (truthy (qrCodeData (advance env 0 n s0))); simpl;
        split; discriminate.
    + unfold initialize_reply.
      destruct (isConnected (advance env 0 n s0)).
      * simpl. split; [discriminate|intros [X _]; discriminate X].
      * destruct (truthy (qrCodeData (advance env 0 n s0))); simpl.
        -- split; auto.
        -- split; [discriminate|intros [_ X]; discriminate X].
    + unfold initialize_reply.
      destruct (isConnected (advance env 0 n s0)).
      * simpl. split; [discriminate|intros [X _]; discriminate X].
      * destruct (truthy (qrCodeData (advance env 0 n s0))); simpl.
        -- split; [discriminate|intros [_ X]; discriminate X].
        -- split; auto.
    + unfold initialize_reply.
      destruct (isConnected (advance env 0 n s0)); [left; auto|].
      destruct (truthy (qrCodeData (advance env 0 n s0))); [right; auto|].
      discriminate.
    + unfold initialize_reply.
      destruct (isConnected (advance env 0 n s0)) eqn:I; [discriminate|].
      destruct (truthy (qrCodeData (advance env 0 n s0))) eqn:Q; [discriminate|].
      intros _. simpl.
      assert (N : n = max_attempts).
      { destruct (Nat.eq_dec n max_attempts) as [|D]; [assumption|].
        destruct Kn as [Kn|Kn]; [lia|congruence|].
        destruct F as (_ & Fc & _). apply Fc in Kn. congruence. }
      split; [exact N|]. split; [now rewrite N|].
      split; [reflexivity|]. split; [reflexivity|]. split; [reflexivity|].
      intros h Hh. simpl. rewrite Hh. cbv zeta. repeat split.
    + intros Q I.
      assert (A : forall d k, advance env k d s0 = s0).
      { induction d as [|d IH]; intros k; [reflexivity|].
        cbn [advance]. rewrite Q. apply IH. }
      rewrite A in *.
      assert (S0 : s0 = makeSocket (initialize_begin s)) by (unfold s0; now rewrite Q).
      assert (N : n = max_attempts).
      { destruct (Nat.eq_dec n max_attempts) as [|D]; [assumption|].
        destruct Kn as [Kn|Kn]; [lia| |]; rewrite S0 in Kn; discriminate Kn. }
      split; [exact N|]. split; [reflexivity|].
      split; [unfold initialize_reply; rewrite S0; simpl; now rewrite I|].
      rewrite S0. split; [reflexivity|].
      unfold is_live. simpl. rewrite existsb_app. simpl.
      now rewrite Nat.eqb_refl, orb_true_r.
Qed.

Lemma initialize_contract_witness :
  initialize 21 Resolved quiet paired
  = Some (paired, mkAnswer (Http.mkReply 200 true "Already connected") (Some connected) 0) /\
  initialize 21 (Rejected "EACCES") quiet (init None)
  = Some (exec (quiet 0) (initialize_begin (init None)),
          mkAnswer (Http.mkReply 500 false "EACCES") None 0) /\
  exists n,
    n <= max_attempts /\
    initialize 21 Resolved quiet (init None)
    = Some (advance quiet 0 n (makeSocket (exec (quiet 0) (initialize_begin (init None)))),
            initialize_reply n
              (advance quiet 0 n (makeSocket (exec (quiet 0) (initialize_begin (init None)))))).
Proof.
  split; [|split].
  - assert (R : reachable paired) by (exists None; eexists; reflexivity).
    exact (proj1 (initialize_contract quiet paired R) eq_refl Resolved).
  - assert (R : reachable (init None)) by (exists None, []; reflexivity).
    exact (proj1 (proj2 (initialize_contract quiet (init None) R) eq_refl) "EACCES").
  - assert (R : reachable (init None)) by (exists None, []; reflexivity).
    destruct (proj2 (proj2 (initialize_contract quiet (init None) R) eq_refl))
      as (n & H1 & _ & H2 & _).
    exists n. split; [exact H2|exact H1].
Defined.

(** A call made with nothing connected and nothing happening: 20 sleeps,
    then the failure. *)
Example initialize_times_out :
  option_map snd (initialize 21 Resolved quiet (init None))
  = Some (mkAnswer (Http.mkReply 500 false "Failed to generate QR code") None 20).
Proof. reflexivity. Qed.

(** A pairing code that comes during the third sleep is answered after
    three sleeps. *)
Example initialize_sees_pairing_code :
  option_map snd
    (initialize 21 Resolved
       (fun k => if Nat.eqb k 3
                 then [ConnectionUpdate 0 (mkUpdate None None (Some "2@k9"))] else [])
       (init None))
  = Some (mkAnswer (Http.mkReply 200 true "QR code generated") (Some qr_ready) 3).
Proof. reflexivity. Qed.

(** ** Transport instances *)

Lemma live_bound_step l s : live_bound s -> live_bound (step l s).
Proof.
  unfold live_bound. intros H.
  destruct l as [h u|h c| | | | |a]; simpl.
  - destruct (is_live h s); [|exact H].
    unfold on_connection_update, on_qr.
    destruct (truthy (qr u)); destruct (connection u) as [[]|]; simpl; try exact H;
      apply Forall_forall; intros x Hx; apply filter_In in Hx;
      rewrite Forall_forall in H; apply H, Hx.
  - destruct (is_live h s); exact H.
  - destruct (timers s); exact H.
  - destruct (connects s); [exact H|]. simpl.
    apply Forall_app. split.
    + eapply Forall_impl; [|exact H]. simpl. intros; lia.
    + constructor; [lia|constructor].
  - destruct (sock_and_isConnected s); exact H.
  - destruct (sock s); exact H.
  - destruct (loggingOut s); [exact H|]. destruct a; exact H.
Qed.

Lemma live_bound_reachable s : reachable s -> live_bound s.
Proof.
  apply reachable_ind; [|apply live_bound_step].
  intros [c|]; constructor.
Qed.

Lemma sleeps_initialize_reply n s : sleeps (initialize_reply n s) = n.
Proof.
  unfold initialize_reply.
  destruct (isConnected s); [|destruct (truthy (qrCodeData s))]; reflexivity.
Qed.

(** C8, counterexample.  A first POST /initialize has created transport 0
    and the phase is Initializing; a second POST /initialize creates
    transport 1 while transport 0 is still live. *)
Lemma second_initialize_allocates :
  connectionStatus pending = initializing /\
  live pending = [0] /\
  option_map (fun r => live (fst r)) (initialize 21 Resolved quiet pending) = Some [0; 1] /\
  live (exec [InitializeRequest; SocketMade] pending) = [0; 1] /\
  ~ List.length (live (exec [InitializeRequest; SocketMade] pending)) <= 1.
Proof. repeat split. simpl. lia. Qed.

(** C8, as amended.  A connect request made while a handle is connected is
    a no-op that answers the current state.  Any other connect request, one
    made in the phase Initializing included, creates a new transport when
    its connect sequence reaches [makeWASocket]: the new instance becomes
    the handle, and the instances that were live stay live, so nothing
    bounds their number by one.  The answer of the call is computed from the
    shared state alone, whichever instance wrote it. *)
Theorem initialize_allocation :
  forall env s,
    reachable s ->
    (sock_and_isConnected s = true ->
       step InitializeRequest s = s /\
       initialize 21 Resolved env s
       = Some (s, mkAnswer (Http.mkReply 200 true "Already connected") (Some connected) 0)) /\
    (sock_and_isConnected s = false ->
       let s1 := exec (env 0) (initialize_begin s) in
       let s0 := makeSocket s1 in
       let t := step SocketMade (step InitializeRequest s) in
       sock s0 = Some (sockets s1) /\ sockets s0 = S (sockets s1) /\
       live s0 = live s1 ++ [sockets s1] /\ ~ In (sockets s1) (live s1) /\
       sock t = Some (sockets s) /\ sockets t = S (sockets s) /\
       live t = live s ++ [sockets s] /\ ~ In (sockets s) (live s) /\
       exists s' a,
         initialize 21 Resolved env s = Some (s', a) /\
         a = initialize_reply (sleeps a) s').
Proof.
  intros env s R. split.
  - intros C. simpl. unfold initialize. now rewrite C.
  - intros C. cbv zeta.
    assert (B : forall x, live_bound x -> ~ In (sockets x) (live x)).
    { intros x Hx I. unfold live_bound in Hx. rewrite Forall_forall in Hx.
      apply Hx in I. lia. }
    assert (B1 : live_bound (exec (env 0) (initialize_begin s))).
    { apply (exec_keeps live_bound live_bound_step).
      apply live_bound_reachable in R. exact R. }
    split; [reflexivity|]. split; [reflexivity|]. split; [reflexivity|].
    split; [now apply B|].
    simpl. rewrite C. simpl.
    split; [reflexivity|]. split; [reflexivity|]. split; [reflexivity|].
    split; [apply B; now apply live_bound_reachable|].
    destruct (wait_for_qr_spec 21 env 0 (makeSocket (exec (env 0) (initialize_begin s))))
      as (n & E & _); [unfold max_attempts; lia|].
    cbn [Nat.add] in E.
    eexists. eexists. split.
    + unfold initialize. rewrite C, E. reflexivity.
    + now rewrite sleeps_initialize_reply.
Qed.

Lemma initialize_allocation_witness :
  step InitializeRequest paired = paired /\
  live (step SocketMade (step InitializeRequest pending)) = live pending ++ [sockets pending].
Proof.
  split.
  - assert (R : reachable paired) by (exists None; eexists; reflexivity).
    exact (proj1 (proj1 (initialize_allocation quiet paired R) eq_refl)).
  - assert (R : reachable pending) by (exists None; eexists; reflexivity).
    pose proof (proj2 (initialize_allocation quiet pending R) eq_refl) as H.
    cbv zeta in H. decompose [and] H. assumption.
Defined.

Lemma disconnected_flag_step l s :
  disconnected_flag s -> disconnected_flag (step l s).
Proof.
  unfold disconnected_flag. intros H.
  destruct l as [h u|h c| | | | |a]; simpl.
  - destruct (is_live h s); [|exact H].
    unfold on_connection_update, on_qr.
    destruct (truthy (qr u)); destruct (connection u) as [[]|]; simpl;
      auto; discriminate.
  - destruct (is_live h s); exact H.
  - destruct (timers s); exact H.
  - destruct (connects s); exact H.
  - destruct (sock_and_isConnected s); [exact H|discriminate].
  - destruct (sock s); [exact H|reflexivity].
  - destruct (loggingOut s); [exact H|]. destruct a; [reflexivity|exact H].
Qed.

Lemma disconnected_flag_reachable s : reachable s -> disconnected_flag s.
Proof.
  apply reachable_ind; [|apply disconnected_flag_step].
  intros [c|] _; reflexivity.
Qed.

End SessionFacts.

(** * Properties of the dispatch engine *)

Section DispatchFacts.

Import Dispatch.

Lemma send_numbers_spec net b rs :
  forall results log,
    snd (send_numbers net b rs results log) = log ++ sends b rs /\
    exists R,
      fst (send_numbers net b rs results log) = results ++ R /\
      map recipient R = rs /\
      (forall i r,
          nth_error rs i = Some r ->
          nth_error R i = Some (result_of net b (log ++ firstn i (sends b rs)) r)).
Proof.
  induction rs as [|r rest IH]; intros results log.
  - simpl. rewrite app_nil_r. split; [reflexivity|].
    exists []. rewrite app_nil_r. repeat split. intros [|i] r H; discriminate H.
  - cbn [send_numbers]. unfold attempt.
    destruct (IH (results ++ [result_of net b log r])
                 (log ++ [mkSent (Phone.formatPhoneNumber r) (message b)]))
      as (Hlog & R & HR & Hmap & Hnth).
    unfold result_of in *.
    split.
    + rewrite Hlog, <- app_assoc. reflexivity.
    + exists (result_of net b log r :: R). unfold result_of.
      split; [rewrite HR, <- app_assoc; reflexivity|].
      split.
      * simpl. rewrite Hmap. now destruct (net log _).
      * intros [|i] x Hx.
        -- simpl in Hx. injection Hx as <-. simpl. now rewrite app_nil_r.
        -- simpl in Hx. simpl. rewrite (Hnth i x Hx), <- app_assoc. reflexivity.
Qed.

Lemma map_recipient_length (R : list Result) rs :
  map recipient R = rs -> List.length R = List.length rs.
Proof. intros <-. now rewrite length_map. Qed.

(** What the handler does once its two guards are passed in direct mode. *)
Lemma publish_numbers net s b rs :
  Session.sock_and_isConnected s = true ->
  mode b = Some "numbers" ->
  truthy (caption b) = true ->
  recipients b = Some rs ->
  publish net s b
  = let R := fst (send_numbers net b rs [] []) in
    mkOutcome
      (Http.mkReply 200 (forallb success R)
         (if forallb success R then "Messages sent successfully" else "Some messages failed"))
      (Some R) (snd (send_numbers net b rs [] [])).
Proof.
  intros C M K Rs. unfold publish, mode_is.
  rewrite C, M, K, Rs. simpl.
  destruct rs as [|r rest]; reflexivity.
Qed.

(** What the handler does once its two guards are passed in group mode. *)
Lemma publish_group net s b g :
  Session.sock_and_isConnected s = true ->
  mode b = Some "group" ->
  truthy (caption b) = true ->
  groupId b = Some g -> truthy (Some g) = true ->
  publish net s b
  = let R := fst (send_group net b [] []) in
    mkOutcome
      (Http.mkReply 200 (forallb success R)
         (if forallb success R then "Messages sent successfully" else "Some messages failed"))
      (Some R) [mkSent g (message b)].
Proof.
  intros C M K G T. unfold publish, mode_is.
  rewrite C, M, K, G, T. simpl.
  destruct (recipients b) as [[|r rest]|]; simpl; rewrite G; reflexivity.
Qed.

(** C5.  For a direct-mode request with recipients [rs] that passes the
    guards, POST /publish calls the transport once per recipient, in the
    order of [rs], and answers one result per recipient in that order: the
    result of the [i]-th recipient says whether the [i]-th call resolved, a
    rejected call being recorded and followed by the remaining calls.  The
    overall [success] is the conjunction of the results.  With three
    recipients of which only the second call rejects, the results are
    success, failure, success, and [success] is false. *)
Theorem publish_partial_failure :
  forall net s b rs,
    Session.sock_and_isConnected s = true ->
    mode b = Some "numbers" ->
    truthy (caption b) = true ->
    recipients b = Some rs ->
    let o := publish net s b in
    exists R,
      results o = Some R /\
      List.length R = List.length rs /\
      map recipient R = rs /\
      sent o = sends b rs /\
      (forall i r,
          nth_error rs i = Some r ->
          nth_error R i = Some (result_of net b (firstn i (sends b rs)) r)) /\
      Http.code (reply o) = 200 /\
      Http.success (reply o) = forallb success R /\
      (forall r1 r2 r3 e,
          rs = [r1; r2; r3] ->
          net [] (mkSent (Phone.formatPhoneNumber r1) (message b)) = Resolved ->
          net (sends b [r1]) (mkSent (Phone.formatPhoneNumber r2) (message b)) = Rejected e ->
          net (sends b [r1; r2]) (mkSent (Phone.formatPhoneNumber r3) (message b)) = Resolved ->
          R = [mkResult r1 true None; mkResult r2 false (Some e); mkResult r3 true None] /\
          Http.success (reply o) = false).
Proof.
  intros net s b rs C M K Rs. cbv zeta.
  rewrite (publish_numbers net s b rs C M K Rs). cbv zeta.
  destruct (send_numbers_spec net b rs [] []) as (Hlog & R & HR & Hmap & Hnth).
  simpl in HR, Hlog, Hnth. rewrite HR, Hlog.
  exists R. cbn [results sent reply Http.code Http.success].
  repeat match goal with |- _ /\ _ => split end; auto.
  - now apply map_recipient_length.
  - intros r1 r2 r3 e -> N1 N2 N3.
    assert (E : R = [mkResult r1 true None; mkResult r2 false (Some e);
                     mkResult r3 true None]).
    { pose proof (Hnth 0 r1 eq_refl) as H0.
      pose proof (Hnth 1 r2 eq_refl) as H1.
      pose proof (Hnth 2 r3 eq_refl) as H2.
      unfold result_of in H0, H1, H2. simpl in H0, H1, H2.
      simpl in N2, N3. rewrite N1 in H0. rewrite N2 in H1. rewrite N3 in H2.
      apply map_recipient_length in Hmap.
      destruct R as [|a [|b0 [|c [|d R]]]]; try discriminate Hmap.
      simpl in H0, H1, H2. congruence. }
    split; [exact E|]. rewrite E. reflexivity.
Qed.

Lemma publish_partial_failure_witness :
  Session.sock_and_isConnected Session.paired = true /\
  exists R,
    results (publish second_fails Session.paired three_numbers) = Some R /\
    List.length R = 3 /\
    map recipient R = ["+44 123-456-789"; "0044 20 7946 0000"; "15550100"] /\
    R = [mkResult "+44 123-456-789" true None;
         mkResult "0044 20 7946 0000" false (Some "timed out");
         mkResult "15550100" true None] /\
    Http.success (reply (publish second_fails Session.paired three_numbers)) = false.
Proof.
  split; [reflexivity|].
  destruct (publish_partial_failure second_fails Session.paired three_numbers
              ["+44 123-456-789"; "0044 20 7946 0000"; "15550100"]
              eq_refl eq_refl eq_refl eq_refl)
    as (R & H1 & H2 & H3 & _ & _ & _ & _ & H4).
  exists R. split; [exact H1|]. split; [exact H2|]. split; [exact H3|].
  exact (H4 _ _ _ "timed out" eq_refl eq_refl eq_refl eq_refl).
Defined.

(** The same run, evaluated. *)
Example publish_three_numbers :
  publish second_fails Session.paired three_numbers
  = mkOutcome
      (Http.mkReply 200 false "Some messages failed")
      (Some [mkResult "+44 123-456-789" true None;
             mkResult "0044 20 7946 0000" false (Some "timed out");
             mkResult "15550100" true None])
      [mkSent "44123456789@s.whatsapp.net" (Text "hi");
       mkSent "442079460000@s.whatsapp.net" (Text "hi");
       mkSent "15550100@s.whatsapp.net" (Text "hi")].
Proof. reflexivity. Qed.

Lemma sends_content b rs m : In m (sends b rs) -> content m = message b.
Proof.
  unfold sends. intros H. apply in_map_iff in H.
  destruct H as (r & <- & _). reflexivity.
Qed.

(** Every call made by the handler carries [message b], and is made only
    after the caption was found truthy. *)
Lemma sent_content net s b m :
  In m (sent (publish net s b)) ->
  content m = message b /\ truthy (caption b) = true.
Proof.
  unfold publish.
  destruct (negb (Session.sock_and_isConnected s)); [intros []|].
  destruct (truthy (mode b)); simpl; [|intros []].
  destruct (truthy (caption b)); simpl; [|intros []].
  intros H. split; [|reflexivity]. revert H.
  set (acc := match recipients b with
              | Some ((_ :: _) as rs) =>
                  if mode_is "numbers" b then send_numbers net b rs [] [] else ([], [])
              | _ => ([], [])
              end).
  assert (A : forall x, In x (snd acc) -> content x = message b).
  { unfold acc. destruct (recipients b) as [[|r rest]|]; try (intros x []).
    destruct (mode_is "numbers" b); [|intros x []].
    intros x Hx. rewrite (proj1 (send_numbers_spec net b (r :: rest) [] [])) in Hx.
    now apply sends_content in Hx. }
  destruct (mode_is "group" b && truthy (groupId b))%bool; [|apply A].
  unfold send_group, attempt. simpl. intros H.
  apply in_app_or in H. destruct H as [H|[<-|[]]]; [now apply A|reflexivity].
Qed.

(** C9.  Every message sent by POST /publish, to a recipient or to a group,
    is a media message exactly when [mediaUrl] is truthy, and is otherwise
    the plain text of the caption; a media message is a video when
    [mediaType] is exactly "video" and an image for every other value of
    [mediaType], an absent one included. *)
Theorem media_branch :
  forall net s b m,
    In m (sent (publish net s b)) ->
    exists cap,
      caption b = Some cap /\
      ((truthy (mediaUrl b) = false /\ content m = Text cap) \/
       (exists url,
           mediaUrl b = Some url /\ truthy (mediaUrl b) = true /\
           ((mediaType b = Some "video" /\ content m = Video url cap) \/
            (mediaType b <> Some "video" /\ content m = Image url cap)))).
Proof.
  intros net s b m H. apply sent_content in H. destruct H as [-> K].
  destruct (caption b) as [cap|] eqn:C; [|discriminate K].
  exists cap. split; [reflexivity|].
  unfold message. rewrite C. simpl.
  destruct (truthy (mediaUrl b)) eqn:U; [right|left; auto].
  destruct (mediaUrl b) as [url|] eqn:Mu; [|discriminate U].
  exists url. split; [reflexivity|]. split; [reflexivity|]. simpl.
  unfold is_video. destruct (mediaType b) as [t|].
  - destruct (String.eqb_spec t "video") as [->|N]; [left; auto|right].
    split; [congruence|reflexivity].
  - right. split; [discriminate|reflexivity].
Qed.

Lemma media_branch_witness :
  sent (publish reliable Session.paired group_picture)
  = [mkSent "g1" (Image "http://x/y.png" "hi")] /\
  exists cap,
    caption group_picture = Some cap /\
    ((truthy (mediaUrl group_picture) = false /\
      content (mkSent "g1" (Image "http://x/y.png" "hi")) = Text cap) \/
     (exists url,
         mediaUrl group_picture = Some url /\ truthy (mediaUrl group_picture) = true /\
         ((mediaType group_picture = Some "video" /\
           content (mkSent "g1" (Image "http://x/y.png" "hi")) = Video url cap) \/
          (mediaType group_picture <> Some "video" /\
           content (mkSent "g1" (Image "http://x/y.png" "hi")) = Image url cap)))).
Proof.
  split; [reflexivity|].
  apply (media_branch reliable Session.paired group_picture). simpl. auto.
Defined.

(** C10.  In direct mode the results name the recipients as the caller gave
    them, in order, while the calls go to their normalized addresses.  In
    group mode the single result is named "group", while the call goes to
    the group id. *)
Theorem outcome_identification :
  forall net s b,
    Session.sock_and_isConnected s = true ->
    truthy (caption b) = true ->
    let o := publish net s b in
    (forall rs,
        mode b = Some "numbers" -> recipients b = Some rs ->
        exists R,
          results o = Some R /\
          map recipient R = rs /\
          map jid (sent o) = map Phone.formatPhoneNumber rs) /\
    (forall g,
        mode b = Some "group" -> groupId b = Some g -> truthy (Some g) = true ->
        exists r,
          results o = Some [r] /\
          recipient r = "group" /\
          map jid (sent o) = [g]).
Proof.
  intros net s b C K. cbv zeta. split.
  - intros rs M Rs. rewrite (publish_numbers net s b rs C M K Rs). cbv zeta.
    destruct (send_numbers_spec net b rs [] []) as (Hlog & R & HR & Hmap & _).
    simpl in HR, Hlog. exists R. cbn [results sent]. rewrite HR, Hlog.
    repeat split; auto.
    unfold sends. rewrite map_map. reflexivity.
  - intros g M G T. rewrite (publish_group net s b g C M K G T). cbv zeta.
    unfold send_group, attempt. simpl.
    destruct (net [] _); eexists; repeat split.
Qed.

Lemma outcome_identification_witness :
  (exists R,
      results (publish second_fails Session.paired three_numbers) = Some R /\
      map recipient R = ["+44 123-456-789"; "0044 20 7946 0000"; "15550100"] /\
      map jid (sent (publish second_fails Session.paired three_numbers))
      = map Phone.formatPhoneNumber ["+44 123-456-789"; "0044 20 7946 0000"; "15550100"]) /\
  (exists r,
      results (publish reliable Session.paired group_picture) = Some [r] /\
      recipient r = "group" /\
      map jid (sent (publish reliable Session.paired group_picture)) = ["g1"]).
Proof.
  split.
  - apply (proj1 (outcome_identification second_fails Session.paired three_numbers
                    eq_refl eq_refl)); reflexivity.
  - apply (proj2 (outcome_identification reliable Session.paired group_picture
                    eq_refl eq_refl)); reflexivity.
Defined.

(** C2, counterexample.  On a connected session a direct-mode request with
    an empty recipient list is answered with success and an empty result
    list, not with a failure.  And the guard reads the handle and the
    connected flag, not the phase: in a reachable state where the flag is on
    and the phase is PairingReady the request is carried out. *)
Lemma publish_without_target_succeeds :
  (let o := publish reliable Session.paired no_recipients in
   Session.connectionStatus Session.paired = Session.connected /\
   recipients no_recipients = Some [] /\
   reply o = Http.mkReply 200 true "Messages sent successfully" /\
   results o = Some [] /\
   ~ InvalidRequest o) /\
  (let s := Session.connected_with_stray_code in
   let o := publish reliable s three_numbers in
   Session.connectionStatus s = Session.qr_ready /\
   ~ NotConnected o /\
   List.length (sent o) = 3).
Proof.
  split; cbv zeta; repeat split; discriminate.
Qed.

(** C2, as amended.  POST /publish fails with "not connected" when there is
    no handle or the connected flag is off, which is the case in every
    reachable state whose phase is Disconnected; past that guard it fails
    with "missing required fields" when [mode] or [caption] is missing or
    empty.  A request that passes both guards and names no target for its
    mode is not a failure: it is answered with success and an empty result
    list.  In all these cases no message is sent. *)
Theorem publish_preconditions :
  forall net s b,
    let o := publish net s b in
    (Session.sock_and_isConnected s = false ->
       NotConnected o /\ results o = None /\ sent o = []) /\
    (Session.reachable s -> Session.connectionStatus s = Session.disconnected ->
       NotConnected o /\ results o = None /\ sent o = []) /\
    (Session.sock_and_isConnected s = true ->
     truthy (mode b) = false \/ truthy (caption b) = false ->
       InvalidRequest o /\ results o = None /\ sent o = []) /\
    (Session.sock_and_isConnected s = true ->
     truthy (mode b) = true -> truthy (caption b) = true -> no_target b ->
       reply o = Http.mkReply 200 true "Messages sent successfully" /\
       results o = Some [] /\ sent o = []).
Proof.
  intros net s b. cbv zeta.
  assert (N : Session.sock_and_isConnected s = false ->
              NotConnected (publish net s b) /\ results (publish net s b) = None
              /\ sent (publish net s b) = []).
  { intros C. unfold publish, NotConnected. rewrite C. simpl. auto. }
  split; [exact N|]. split; [|split].
  - intros R D. apply N.
    apply disconnected_flag_reachable in R. specialize (R D).
    unfold Session.sock_and_isConnected. rewrite R. now destruct (Session.sock s).
  - intros C H. unfold publish, InvalidRequest. rewrite C. simpl.
    destruct H as [H|H]; rewrite H; simpl; auto.
    destruct (truthy (mode b)); simpl; auto.
  - intros C M K [Tn Tg]. unfold publish. rewrite C, M, K. simpl.
    assert (A : match recipients b with
                | Some ((_ :: _) as rs) =>
                    if mode_is "numbers" b then send_numbers net b rs [] [] else ([], [])
                | _ => ([], [])
                end = ([], [])).
    { destruct (mode_is "numbers" b).
      - destruct (Tn eq_refl) as [-> | ->]; reflexivity.
      - now destruct (recipients b) as [[|]|]. }
    rewrite A. simpl.
    destruct (mode_is "group" b); simpl; [rewrite (Tg eq_refl)|]; simpl; auto.
Qed.

Lemma publish_preconditions_witness :
  NotConnected (publish reliable (Session.init None) three_numbers) /\
  InvalidRequest
    (publish reliable Session.paired (mkBody (Some "numbers") None None None None None)) /\
  sent (publish reliable Session.paired no_recipients) = [] /\
  NotConnected
    (publish reliable
       (Session.step (Session.ConnectionUpdate 0 (Session.closed None)) Session.paired)
       three_numbers).
Proof.
  split; [|split; [|split]].
  - apply (proj1 (publish_preconditions reliable (Session.init None) three_numbers)).
    reflexivity.
  - apply (proj1 (proj2 (proj2
             (publish_preconditions reliable Session.paired
                (mkBody (Some "numbers") None None None None None)))));
      [reflexivity|right; reflexivity].
  - apply (proj2 (proj2 (proj2
             (publish_preconditions reliable Session.paired no_recipients))));
      try reflexivity.
    split; [intros _; right; reflexivity|discriminate].
  - apply (proj1 (proj2
             (publish_preconditions reliable
                (Session.step (Session.ConnectionUpdate 0 (Session.closed None))
                              Session.paired)
                three_numbers))); [|reflexivity].
    exists None. eexists. unfold Session.paired.
    change (Session.step ?l (Session.exec ?tr ?x)) with (Session.exec (tr ++ [l]) x).
    reflexivity.
Defined.

End DispatchFacts.

(** * Further properties of the address normalization *)

Section PhoneMore.

Import Phone.

Lemma replace_nondigits_app a b :
  replace_nondigits (a ++ b) = (replace_nondigits a ++ replace_nondigits b)%string.
Proof.
  induction a as [|c a IH]; simpl; [reflexivity|].
  destruct (is_digit c); simpl; now rewrite IH.
Qed.

Lemma replace_nondigits_digits s : all_digits s = true -> replace_nondigits s = s.
Proof.
  induction s as [|c s IH]; simpl; [reflexivity|].
  intros H. apply andb_true_iff in H. destruct H as [Hc Hs].
  now rewrite Hc, IH.
Qed.

Lemma append_empty_r (s : string) : (s ++ "")%string = s.
Proof. induction s as [|c s IH]; simpl; [reflexivity|now rewrite IH]. Qed.

Lemma append_length (a b : string) :
  String.length (a ++ b) = String.length a + String.length b.
Proof. induction a as [|c a IH]; simpl; [reflexivity|now rewrite IH]. Qed.

Lemma append_cancel_r (a b t : string) : (a ++ t)%string = (b ++ t)%string -> a = b.
Proof.
  revert b. induction a as [|c a IH]; intros [|d b] H; simpl in H.
  - reflexivity.
  - apply (f_equal String.length) in H. simpl in H. rewrite append_length in H. lia.
  - apply (f_equal String.length) in H. simpl in H. rewrite append_length in H. lia.
  - injection H as -> H. f_equal. now apply IH.
Qed.

Lemma startsWith_00_true s :
  startsWith "00" s = true -> exists rest, s = String "0" (String "0" rest).
Proof.
  unfold startsWith. destruct s as [|a [|b rest]]; cbn [String.prefix].
  - discriminate.
  - destruct (ascii_dec "0" a); discriminate.
  - destruct (ascii_dec "0" a) as [<-|]; [|discriminate].
    destruct (ascii_dec "0" b) as [<-|]; [|discriminate]. eauto.
Qed.

(** The local part of the address computed for [number]. *)
Lemma formatPhoneNumber_local number :
  formatPhoneNumber number
  = (drop_international_prefix (replace_nondigits number) ++ suffix)%string
  /\ all_digits (drop_international_prefix (replace_nondigits number)) = true.
Proof.
  assert (D : all_digits (drop_international_prefix (replace_nondigits number)) = true)
    by apply all_digits_drop_prefix, replace_nondigits_all_digits.
  split; [|exact D].
  unfold formatPhoneNumber. rewrite startsWith_00.
  now rewrite (proj1 (plus_free _ D)).
Qed.

(** X1.  Only the digits of the input matter: two inputs with the same
    digits in the same order get the same address, so a character that is
    not a digit can be inserted anywhere without changing the result. *)
Theorem formatPhoneNumber_digits_only :
  (forall a b,
      replace_nondigits a = replace_nondigits b ->
      formatPhoneNumber a = formatPhoneNumber b) /\
  (forall a c b,
      is_digit c = false ->
      formatPhoneNumber (a ++ String c b) = formatPhoneNumber (a ++ b)).
Proof.
  assert (A : forall a b, replace_nondigits a = replace_nondigits b ->
                          formatPhoneNumber a = formatPhoneNumber b).
  { intros a b H.
    rewrite (proj1 (formatPhoneNumber_local a)), (proj1 (formatPhoneNumber_local b)).
    now rewrite H. }
  split; [exact A|].
  intros a c b H. apply A. rewrite !replace_nondigits_app. simpl. now rewrite H.
Qed.

Lemma formatPhoneNumber_digits_only_witness :
  formatPhoneNumber "(020) 7946-0000" = formatPhoneNumber "02079460000" /\
  formatPhoneNumber ("44" ++ String " " "20") = formatPhoneNumber ("44" ++ "20").
Proof.
  split.
  - apply (proj1 formatPhoneNumber_digits_only). reflexivity.
  - apply (proj2 formatPhoneNumber_digits_only). reflexivity.
Defined.

(** X2.  The two ways of writing an international number agree: a leading
    "00" is dropped, once, and a leading "+" is ignored.  So "00" followed by
    [x], "+" followed by [x], and [x] itself get the same address whenever
    the digits of [x] do not themselves begin with "00". *)
Theorem formatPhoneNumber_international :
  forall x,
    formatPhoneNumber ("00" ++ x) = (replace_nondigits x ++ suffix)%string /\
    formatPhoneNumber ("+" ++ x) = formatPhoneNumber x /\
    (startsWith "00" (replace_nondigits x) = false ->
       formatPhoneNumber ("00" ++ x) = formatPhoneNumber x).
Proof.
  intros x.
  assert (E : formatPhoneNumber ("00" ++ x) = (replace_nondigits x ++ suffix)%string).
  { rewrite (proj1 (formatPhoneNumber_local _)). reflexivity. }
  split; [exact E|]. split.
  - rewrite (proj1 (formatPhoneNumber_local _)), (proj1 (formatPhoneNumber_local x)).
    reflexivity.
  - intros H. rewrite E, (proj1 (formatPhoneNumber_local x)), <- startsWith_00.
    now rewrite H.
Qed.

Lemma formatPhoneNumber_international_witness :
  formatPhoneNumber ("00" ++ "44 20 7946") = formatPhoneNumber "44 20 7946".
Proof.
  apply (proj2 (proj2 (formatPhoneNumber_international "44 20 7946"))). reflexivity.
Defined.

(** X3.  Normalizing an address again keeps the suffix single and drops a
    further "00": it gives the same address exactly when the local part does
    not begin with "00", and a shorter one otherwise. *)
Theorem formatPhoneNumber_again :
  forall number,
    let local := drop_international_prefix (replace_nondigits number) in
    formatPhoneNumber (formatPhoneNumber number)
    = (drop_international_prefix local ++ suffix)%string /\
    (startsWith "00" local = false ->
       formatPhoneNumber (formatPhoneNumber number) = formatPhoneNumber number) /\
    (startsWith "00" local = true ->
       String.length (formatPhoneNumber (formatPhoneNumber number)) + 2
       = String.length (formatPhoneNumber number)).
Proof.
  intros number. cbv zeta.
  destruct (formatPhoneNumber_local number) as [E D].
  set (local := drop_international_prefix (replace_nondigits number)) in *.
  assert (A : formatPhoneNumber (formatPhoneNumber number)
              = (drop_international_prefix local ++ suffix)%string).
  { rewrite (proj1 (formatPhoneNumber_local (formatPhoneNumber number))), E.
    rewrite replace_nondigits_app, (replace_nondigits_digits _ D).
    simpl. now rewrite append_empty_r. }
  split; [exact A|]. split.
  - intros H. rewrite A, E, <- startsWith_00. now rewrite H.
  - intros H. rewrite A, E, !append_length.
    destruct (startsWith_00_true _ H) as (rest & ->). simpl. lia.
Qed.

Lemma formatPhoneNumber_again_witness :
  formatPhoneNumber (formatPhoneNumber "+44 20 7946") = formatPhoneNumber "+44 20 7946" /\
  String.length (formatPhoneNumber (formatPhoneNumber "0000 44")) + 2
  = String.length (formatPhoneNumber "0000 44").
Proof.
  split.
  - apply (proj1 (proj2 (formatPhoneNumber_again "+44 20 7946"))). reflexivity.
  - apply (proj2 (proj2 (formatPhoneNumber_again "0000 44"))). reflexivity.
Defined.

(** X4.  Distinct numbers get distinct addresses: on inputs made of digits
    that do not begin with "00", the normalization is injective. *)
Theorem formatPhoneNumber_injective :
  forall a b,
    all_digits a = true -> all_digits b = true ->
    startsWith "00" a = false -> startsWith "00" b = false ->
    formatPhoneNumber a = formatPhoneNumber b ->
    a = b.
Proof.
  intros a b Da Db Sa Sb H.
  rewrite (proj1 (formatPhoneNumber_local a)), (proj1 (formatPhoneNumber_local b)) in H.
  apply append_cancel_r in H.
  rewrite !replace_nondigits_digits, <- !startsWith_00, Sa, Sb in H by assumption.
  exact H.
Qed.

Lemma formatPhoneNumber_injective_witness :
  all_digits "15550100" = true /\ startsWith "00" "15550100" = false /\
  "15550100" = "15550100".
Proof.
  split; [reflexivity|]. split; [reflexivity|].
  apply (formatPhoneNumber_injective "15550100" "15550100"); reflexivity.
Defined.

End PhoneMore.

(** * Further properties of the session manager *)

Section SessionMore.

Import Session Runs.

(** X5.  GET /status never contradicts itself: in every reachable state, a
    reported status 'connected' comes with [connected: true], and a reported
    status 'disconnected' with [connected: false]. *)
Theorem get_status_consistent :
  forall s,
    reachable s ->
    let j := Control.get_status s in
    Control.success j = true /\
    (Control.status j = Some connected -> Control.connected j = Some true) /\
    (Control.status j = Some disconnected -> Control.connected j = Some false).
Proof.
  intros s R. cbv zeta. simpl. split; [reflexivity|]. split.
  - intros [= E]. apply flags_reachable in R. destruct R as (_ & C & _).
    now rewrite (C E).
  - intros [= E]. apply disconnected_flag_reachable in R. now rewrite (R E).
Qed.

Lemma get_status_consistent_witness :
  Control.connected (Control.get_status paired) = Some true /\
  Control.connected (Control.get_status (init None)) = Some false.
Proof.
  split.
  - apply (get_status_consistent paired); [exists None; eexists|]; reflexivity.
  - apply (get_status_consistent (init None)); [exists None, []|]; reflexivity.
Defined.

(** X6.  GET /qr-code agrees with the phase: in every reachable state it
    returns a pairing code exactly when the phase is PairingReady, the code
    being the stored one; and when it answers with a failure there is no
    code, the connected flag is off, and the status it reports is
    'disconnected' or 'initializing'. *)
Theorem get_qr_code_consistent :
  forall s,
    reachable s ->
    let j := Control.get_qr_code s in
    (Control.qr j <> None <-> connectionStatus s = qr_ready) /\
    (Control.qr j <> None ->
       Control.qr j = qrCodeData s /\ Control.success j = true /\
       Control.status j = Some qr_ready) /\
    (Control.success j = false ->
       qrCodeData s = None /\ isConnected s = false /\
       (Control.status j = Some disconnected \/ Control.status j = Some initializing)).
Proof.
  intros s R. cbv zeta.
  pose proof (disconnected_flag_reachable s R) as D.
  apply flags_reachable in R. destruct R as (P & C & T).
  unfold Control.get_qr_code.
  destruct (truthy (qrCodeData s)) eqn:Q; simpl.
  - pose proof (truthy_some _ Q) as N.
    split; [split; [intros _; now apply P|intros _; exact N]|].
    split; [auto|discriminate].
  - assert (N : qrCodeData s = None).
    { destruct (qrCodeData s) eqn:E; [|reflexivity].
      assert (X : truthy (qrCodeData s) = true) by (apply T; congruence).
      congruence. }
    assert (NP : connectionStatus s <> qr_ready).
    { intros E. apply P in E. contradiction. }
    destruct (isConnected s) eqn:I; simpl.
    + split; [split; [intros H; now elim H|intros E; contradiction]|].
      split; [intros H; now elim H|discriminate].
    + split; [split; [intros H; now elim H|intros E; contradiction]|].
      split; [intros H; now elim H|].
      intros _. split; [exact N|]. split; [reflexivity|].
      destruct (connectionStatus s) eqn:E; auto.
      * now elim NP.
      * specialize (C E). congruence.
Qed.

Lemma get_qr_code_consistent_witness :
  Control.qr (Control.get_qr_code paired) = None /\
  (Control.success (Control.get_qr_code pending) = false ->
   qrCodeData pending = None).
Proof.
  split.
  - destruct (Control.qr (Control.get_qr_code paired)) eqn:E; [|reflexivity].
    assert (R : reachable paired) by (exists None; eexists; reflexivity).
    assert (N : Control.qr (Control.get_qr_code paired) <> None) by congruence.
    apply (proj1 (get_qr_code_consistent paired R)) in N. discriminate N.
  - intros H.
    assert (R : reachable pending) by (exists None; eexists; reflexivity).
    apply (proj2 (proj2 (get_qr_code_consistent pending R)) H).
Defined.

(** ** Transport handles *)

Lemma handles_ok_step l s : handles_ok s -> handles_ok (step l s).
Proof.
  intros (N & D & B). unfold handles_ok.
  split; [|split; [|now apply live_bound_step]].
  - destruct l as [h u|h c| | | | |a]; simpl.
    + destruct (is_live h s); [|exact N].
      unfold on_connection_update, on_qr.
      destruct (truthy (qr u)); destruct (connection u) as [[]|]; exact N.
    + destruct (is_live h s); exact N.
    + destruct (timers s); exact N.
    + destruct (connects s); [exact N|]. simpl. now intros h [= <-].
    + destruct (sock_and_isConnected s); exact N.
    + destruct (sock s) eqn:E; simpl; [now rewrite E|discriminate].
    + destruct (loggingOut s); [exact N|]. destruct a; simpl; [discriminate|exact N].
  - destruct l as [h u|h c| | | | |a]; simpl.
    + destruct (is_live h s); [|exact D].
      unfold on_connection_update, on_qr.
      destruct (truthy (qr u)); destruct (connection u) as [[]|]; simpl;
        try exact D; now apply NoDup_filter.
    + destruct (is_live h s); exact D.
    + destruct (timers s); exact D.
    + destruct (connects s); [exact D|]. simpl.
      apply NoDup_app; [exact D|repeat constructor; intros []|].
      intros x Hx [<-|[]]. unfold live_bound in B.
      rewrite Forall_forall in B. apply B in Hx. lia.
    + destruct (sock_and_isConnected s); exact D.
    + destruct (sock s); exact D.
    + destruct (loggingOut s); [exact D|]. destruct a; exact D.
Qed.

(** X7.  In every reachable state the handle, when it is not null, is the
    transport created last, and the live transports are distinct transports
    that were all created. *)
Theorem handle_is_newest :
  forall s,
    reachable s ->
    (forall h, sock s = Some h -> S h = sockets s) /\
    NoDup (live s) /\
    (forall h, is_live h s = true -> h < sockets s).
Proof.
  intros s R.
  assert (H : handles_ok s).
  { revert s R. apply reachable_ind; [|apply handles_ok_step].
    intros [c|]; (split; [discriminate|split; constructor]). }
  destruct H as (N & D & B). split; [exact N|]. split; [exact D|].
  intros h L. unfold is_live in L. apply existsb_exists in L.
  destruct L as (x & Hx & E). apply Nat.eqb_eq in E. subst x.
  unfold live_bound in B. rewrite Forall_forall in B. now apply B.
Qed.

Lemma handle_is_newest_witness :
  S 1 = sockets connected_with_stray_code /\ NoDup (live connected_with_stray_code).
Proof.
  assert (R : reachable connected_with_stray_code) by (exists None; eexists; reflexivity).
  destruct (handle_is_newest _ R) as (N & D & _).
  split; [apply N; reflexivity|exact D].
Defined.

(** ** Reconnect timers *)

Lemma timers_fixed_step l s : timers_fixed s -> timers_fixed (step l s).
Proof.
  unfold timers_fixed. intros H.
  destruct l as [h u|h c| | | | |a]; simpl.
  - destruct (is_live h s); [|exact H].
    assert (Q : timers (on_qr u s) = timers s)
      by (unfold on_qr; now destruct (truthy (qr u))).
    unfold on_connection_update.
    destruct (connection u) as [[]|]; simpl; rewrite ?Q; try exact H.
    destruct (shouldReconnect u); [|exact H].
    apply Forall_app. split; [exact H|repeat constructor].
  - destruct (is_live h s); exact H.
  - destruct (timers s) as [|d rest] eqn:E; [now rewrite E|]. simpl. now inversion H.
  - destruct (connects s); exact H.
  - destruct (sock_and_isConnected s); exact H.
  - destruct (sock s); exact H.
  - destruct (loggingOut s); [exact H|]. destruct a; exact H.
Qed.

(** X8.  The backoff is fixed: in every reachable state each pending
    reconnect timer has the delay of 3000 ms, however many closes came
    before, and a close event adds at most one timer. *)
Theorem backoff_is_fixed :
  forall s,
    reachable s ->
    Forall (fun d => d = 3000) (timers s) /\
    (forall h u,
        List.length (timers (step (ConnectionUpdate h u) s))
        <= S (List.length (timers s))).
Proof.
  intros s R. split.
  - revert s R. apply (reachable_ind timers_fixed); [|apply timers_fixed_step].
    intros [c|]; constructor.
  - intros h u. simpl. destruct (is_live h s); [|lia].
    assert (Q : timers (on_qr u s) = timers s)
      by (unfold on_qr; now destruct (truthy (qr u))).
    unfold on_connection_update.
    destruct (connection u) as [[]|]; simpl; rewrite ?Q; try lia.
    destruct (shouldReconnect u); [rewrite length_app; simpl|]; lia.
Qed.

Lemma backoff_is_fixed_witness :
  Forall (fun d => d = 3000)
         (timers (step (ConnectionUpdate 0 (closed None)) paired)).
Proof.
  apply (backoff_is_fixed (step (ConnectionUpdate 0 (closed None)) paired)).
  exists None. eexists. unfold paired.
  change (step ?l (exec ?tr ?x)) with (exec (tr ++ [l]) x). reflexivity.
Defined.

End SessionMore.

(** * Runs of the session manager *)

Section SessionRuns.

Import Session Runs.

Lemma snoc_split {A} (tr tr1 tr2 : list A) (l x : A) :
  tr ++ [l] = tr1 ++ x :: tr2 ->
  (tr2 = [] /\ tr1 = tr /\ x = l) \/
  (exists tr2', tr2 = tr2' ++ [l] /\ tr = tr1 ++ x :: tr2').
Proof.
  intros H. destruct tr2 as [|y tr2 _] using rev_ind.
  - left. apply app_inj_tail in H. destruct H as [-> ->]. auto.
  - right. exists tr2.
    change (tr1 ++ x :: tr2 ++ [y]) with (tr1 ++ (x :: tr2) ++ [y]) in H.
    rewrite app_assoc in H. apply app_inj_tail in H. destruct H as [-> ->]. auto.
Qed.

Lemma authDir_step l s :
  is_logout l = false ->
  (authDir (step l s) = authDir s /\
   forall h c, l = CredsUpdate h c -> is_live h s = false) \/
  (exists h c, l = CredsUpdate h c /\ is_live h s = true /\ authDir (step l s) = Some c).
Proof.
  intros L. destruct l as [h u|h c| | | | |a]; simpl; try discriminate L.
  - left. split; [|discriminate]. destruct (is_live h s); [|reflexivity].
    unfold on_connection_update, on_qr.
    destruct (truthy (qr u)); destruct (connection u) as [[]|]; reflexivity.
  - destruct (is_live h s) eqn:E; [right; eauto|left].
    split; [reflexivity|]. now intros h' c' [= <- _].
  - left. split; [|discriminate]. now destruct (timers s).
  - left. split; [|discriminate]. now destruct (connects s).
  - left. split; [|discriminate]. now destruct (sock_and_isConnected s).
Qed.

(** X9.  Credentials that are on disk are lost only by a logout: along a
    run with no POST /logout they stay on disk, and what is on disk at the
    end is what the last creds.update handled in the run saved, or, when
    none was handled, exactly what was there at the start.  In particular
    no close event, reconnect or POST /initialize changes them. *)
Theorem credentials_survive :
  forall tr s c0,
    forallb (fun l => negb (is_logout l)) tr = true ->
    authDir s = Some c0 ->
    authDir (exec tr s) <> None /\
    ((none_saved tr s /\ authDir (exec tr s) = Some c0) \/
     (exists c, last_saved tr s c /\ authDir (exec tr s) = Some c)) /\
    (forallb (fun l => negb (is_creds_update l)) tr = true ->
       authDir (exec tr s) = Some c0).
Proof.
  intros tr. induction tr as [|l tr IH] using rev_ind; intros s c0 H A0.
  - simpl. split; [congruence|]. split; [|auto].
    left. split; [|exact A0].
    intros tr1 h c tr2 E. now destruct tr1.
  - rewrite forallb_app in H. apply andb_true_iff in H. destruct H as [Ht Hl].
    simpl in Hl. rewrite andb_true_r, negb_true_iff in Hl.
    destruct (IH s c0 Ht A0) as (N & D & C).
    rewrite exec_app. simpl.
    destruct (authDir_step l (exec tr s) Hl) as [[E I]|(h & c & -> & I & E)].
    + rewrite E. split; [exact N|]. split.
      * destruct D as [[D1 D2]|(c & (tr1 & h & tr2 & T & L1 & L2) & D2)].
        -- left. split; [|exact D2].
           intros tr1 h c tr2 T. apply snoc_split in T.
           destruct T as [(_ & -> & <-)|(tr2' & _ & ->)].
           ++ now apply (I h c).
           ++ now apply (D1 tr1 h c tr2').
        -- right. exists c. split; [|exact D2].
           exists tr1, h, (tr2 ++ [l]). split; [|split; [exact L1|]].
           ++ rewrite T, <- app_assoc. reflexivity.
           ++ intros tr2a h' c' tr2b T2. apply snoc_split in T2.
              destruct T2 as [(_ & -> & <-)|(tr2' & _ & ->)].
              ** rewrite <- T. now apply (I h' c').
              ** now apply (L2 tr2a h' c' tr2').
      * intros F. rewrite forallb_app in F. apply andb_true_iff in F.
        apply C, F.
    + rewrite E. split; [discriminate|]. split.
      * right. exists c. split; [|reflexivity].
        exists tr, h, []. split; [reflexivity|]. split; [exact I|].
        intros tr2a h' c' tr2b T. now destruct tr2a.
      * intros F. rewrite forallb_app in F. apply andb_true_iff in F.
        destruct F as [_ F]. discriminate F.
Qed.

Lemma credentials_survive_witness :
  authDir paired = Some "creds" /\
  authDir (exec [ConnectionUpdate 0 (closed (Some loggedOut)); InitializeRequest; SocketMade]
                paired) = Some "creds".
Proof.
  split; [reflexivity|].
  apply (proj2 (proj2 (credentials_survive
                  [ConnectionUpdate 0 (closed (Some loggedOut)); InitializeRequest; SocketMade]
                  paired "creds" eq_refl eq_refl))).
  reflexivity.
Defined.

Lemma reconnect_cycle_exec reason c k :
  shouldReconnect (closed reason) = true ->
  exec (reconnect_cycle reason k)
       (mkState (Some k) None false disconnected (Some c) (S k) [k] 0 [] 0)
  = mkState (Some (S k)) None false disconnected (Some c) (S (S k)) [S k] 0 [] 0.
Proof.
  intros H. unfold reconnect_cycle, exec. simpl.
  unfold is_live. simpl. rewrite Nat.eqb_refl. simpl.
  unfold on_connection_update, on_close. simpl. rewrite H. simpl.
  rewrite Nat.eqb_refl. reflexivity.
Qed.

(** X10.  Reconnection never gives up and never piles up: started with
    credentials on disk, after any number [n] of closes for a reason other
    than [loggedOut], each followed by its timer and its connect sequence,
    [n + 1] transports have been created, exactly the last one is live and
    is the handle, no timer is pending, the credentials are untouched, and
    the phase shown is still Disconnected. *)
Theorem reconnects_unbounded :
  forall reason c n,
    shouldReconnect (closed reason) = true ->
    exec (reconnects reason n) (resumed c)
    = mkState (Some n) None false disconnected (Some c) (S n) [n] 0 [] 0.
Proof.
  intros reason c n H. induction n as [|n IH]; [reflexivity|].
  unfold reconnects, Handle in *. rewrite seq_S, flat_map_app, exec_app, IH. simpl.
  rewrite ?app_nil_r. now apply reconnect_cycle_exec.
Qed.

Lemma reconnects_unbounded_witness :
  sockets (exec (reconnects (Some 428%Z) 5) (resumed "creds")) = 6 /\
  live (exec (reconnects None 5) (resumed "creds")) = [5].
Proof.
  split.
  - now rewrite (reconnects_unbounded (Some 428%Z) "creds" 5 eq_refl).
  - now rewrite (reconnects_unbounded None "creds" 5 eq_refl).
Defined.

(** X11.  A logout does not cancel a pending reconnect: when a reconnect
    timer is pending, a successful POST /logout leaves the handle null, but
    the timer still expires and its connect sequence creates a new
    transport, which becomes the handle. *)
Theorem logout_keeps_pending_reconnect :
  forall s d rest,
    timers s = d :: rest ->
    let s1 := fst (logout Resolved [] s) in
    let s2 := exec [TimerFires; SocketMade] s1 in
    snd (logout Resolved [] s) = Http.mkReply 200 true "Logged out successfully" /\
    sock s1 = None /\ authDir s1 = None /\
    sock s2 = Some (sockets s) /\ is_live (sockets s) s2 = true /\
    timers s2 = rest /\ connectionStatus s2 = disconnected.
Proof.
  intros s d rest T. cbv zeta.
  assert (E : logout Resolved [] s
              = (logout_end s, Http.mkReply 200 true "Logged out successfully")).
  { unfold logout. now destruct (sock s). }
  rewrite E. simpl. rewrite T. simpl.
  repeat split.
  unfold is_live. simpl. rewrite existsb_app. simpl.
  now rewrite Nat.eqb_refl, orb_true_r.
Qed.

Lemma logout_keeps_pending_reconnect_witness :
  let s := step (ConnectionUpdate 0 (closed None)) paired in
  timers s = [3000] /\
  sock (exec [TimerFires; SocketMade] (fst (logout Resolved [] s))) = Some (sockets s).
Proof.
  cbv zeta. split; [reflexivity|].
  apply (logout_keeps_pending_reconnect
           (step (ConnectionUpdate 0 (closed None)) paired) 3000 []).
  reflexivity.
Defined.

(** X12.  The answer of POST /initialize agrees with the state it leaves:
    when it answers 'qr_ready' the phase is PairingReady and GET /qr-code
    returns the code; when it answers 'connected' the connected flag is set;
    and when it answers the failure there is no code and the phase is
    Disconnected or Initializing. *)
Theorem initialize_answer_agrees :
  forall fuel env s s' a,
    reachable s ->
    initialize fuel Resolved env s = Some (s', a) ->
    (status a = Some qr_ready ->
       connectionStatus s' = qr_ready /\
       Control.qr (Control.get_qr_code s') = qrCodeData s' /\
       qrCodeData s' <> None) /\
    (status a = Some connected -> isConnected s' = true) /\
    (Http.success (reply a) = false ->
       qrCodeData s' = None /\
       (connectionStatus s' = disconnected \/ connectionStatus s' = initializing)).
Proof.
  intros fuel env s s' a R E.
  assert (F : flags_ok s').
  { refine (initialize_keeps flags_ok flags_step flags_initialize_begin flags_makeSocket
              fuel Resolved env s s' a _ E).
    now apply flags_reachable. }
  destruct F as (P & C & T).
  unfold initialize in E.
  destruct (sock_and_isConnected s) eqn:G.
  - injection E as <- <-. simpl.
    split; [discriminate|]. split; [|discriminate].
    intros _. unfold sock_and_isConnected in G. now destruct (sock s).
  - destruct (wait_for_qr fuel env 0 _) as [[n s2]|]; [|discriminate E].
    injection E as <- <-. unfold initialize_reply.
    destruct (isConnected s2) eqn:I; simpl.
    + split; [discriminate|]. split; [reflexivity|discriminate].
    + destruct (truthy (qrCodeData s2)) eqn:Q; simpl.
      * pose proof (truthy_some _ Q) as N.
        split; [|split; discriminate].
        intros _. split; [now apply P|].
        unfold Control.get_qr_code. rewrite Q. simpl. auto.
      * split; [discriminate|]. split; [discriminate|]. intros _.
        assert (N : qrCodeData s2 = None).
        { destruct (qrCodeData s2) eqn:X; [|reflexivity].
          assert (Y : truthy (qrCodeData s2) = true) by (apply T; congruence).
          congruence. }
        split; [exact N|].
        destruct (connectionStatus s2) eqn:X; auto.
        -- assert (Z : qrCodeData s2 <> None) by (apply P; exact X). contradiction.
        -- specialize (C X). congruence.
Qed.

Lemma initialize_answer_agrees_witness :
  option_map (fun r => qrCodeData (fst r)) (initialize 21 Resolved quiet (init None))
  = Some None.
Proof.
  assert (R : reachable (init None)) by (exists None, []; reflexivity).
  destruct (initialize 21 Resolved quiet (init None)) as [[s' a]|] eqn:E;
    [|vm_compute in E; discriminate E].
  assert (H : Http.success (reply a) = false).
  { clear - E. vm_compute in E. injection E as _ <-. reflexivity. }
  simpl. f_equal.
  apply (proj2 (proj2 (initialize_answer_agrees 21 quiet (init None) s' a R E)) H).
Defined.

End SessionRuns.

(** * Further properties of the dispatch engine and of GET /groups *)

Section DispatchMore.

Import Dispatch Runs.

Lemma send_numbers_outcomes net b rs :
  forall R L,
    send_numbers net b rs R L = (R ++ outcomes net b L rs, L ++ sends b rs).
Proof.
  induction rs as [|r rest IH]; intros R L.
  - simpl. now rewrite !app_nil_r.
  - cbn [send_numbers outcomes]. unfold attempt.
    change (match net L (mkSent (Phone.formatPhoneNumber r) (message b)) with
            | Resolved => mkResult r true None
            | Rejected e => mkResult r false (Some e)
            end) with (result_of net b L r).
    rewrite IH, <- !app_assoc. reflexivity.
Qed.



Lemma sends_app b rs1 rs2 : sends b (rs1 ++ rs2) = sends b rs1 ++ sends b rs2.
Proof. unfold sends. apply map_app. Qed.

Lemma outcomes_app net b rs1 rs2 :
  forall L,
    outcomes net b L (rs1 ++ rs2)
    = outcomes net b L rs1 ++ outcomes net b (L ++ sends b rs1) rs2.
Proof.
  induction rs1 as [|r rest IH]; intros L; simpl.
  - now rewrite app_nil_r.
  - rewrite IH, <- app_assoc. reflexivity.
Qed.

Lemma outcomes_after net before b rs :
  forall L, outcomes (after net before) b L rs = outcomes net b (before ++ L) rs.
Proof.
  induction rs as [|r rest IH]; intros L; simpl; [reflexivity|].
  rewrite IH, app_assoc. reflexivity.
Qed.

Lemma outcomes_history_free net b rs :
  history_free net ->
  forall L, outcomes net b L rs = map (result_of net b []) rs.
Proof.
  intros H. induction rs as [|r rest IH]; intros L; simpl; [reflexivity|].
  rewrite IH. f_equal. unfold result_of. now rewrite (H L []).
Qed.

Lemma forallb_Permutation {A} (f : A -> bool) l l' :
  Permutation l l' -> forallb f l = forallb f l'.
Proof.
  intros P. induction P as [|x l l' _ IH|x y l|l l' l'' _ IH1 _ IH2]; simpl.
  - reflexivity.
  - now rewrite IH.
  - destruct (f x), (f y); reflexivity.
  - congruence.
Qed.

Lemma sends_with_recipients b rs0 rs : sends (with_recipients b rs0) rs = sends b rs.
Proof. reflexivity. Qed.

Lemma outcomes_with_recipients net b rs0 rs :
  forall L, outcomes net (with_recipients b rs0) L rs = outcomes net b L rs.
Proof.
  induction rs as [|r rest IH]; intros L; simpl; [reflexivity|].
  now rewrite IH.
Qed.

Lemma with_recipients_numbers net s b rs :
  Session.sock_and_isConnected s = true ->
  mode b = Some "numbers" ->
  truthy (caption b) = true ->
  publish net s (with_recipients b rs)
  = let R := outcomes net b [] rs in
    mkOutcome
      (Http.mkReply 200 (forallb success R)
         (if forallb success R then "Messages sent successfully" else "Some messages failed"))
      (Some R) (sends b rs).
Proof.
  intros C M K.
  rewrite (publish_numbers net s (with_recipients b rs) rs C M K eq_refl).
  rewrite send_numbers_outcomes, outcomes_with_recipients, sends_with_recipients.
  reflexivity.
Qed.

(** X13.  A batch is two successive batches: publishing to the recipients
    [rs1] followed by [rs2] gives the results of publishing to [rs1] followed
    by those of publishing to [rs2] on the network as the first batch left
    it; the calls are the calls of the two, and the overall success is the
    conjunction of the two. *)
Theorem publish_splits :
  forall net s b rs1 rs2,
    Session.sock_and_isConnected s = true ->
    mode b = Some "numbers" ->
    truthy (caption b) = true ->
    let o := publish net s (with_recipients b (rs1 ++ rs2)) in
    let o1 := publish net s (with_recipients b rs1) in
    let o2 := publish (after net (sent o1)) s (with_recipients b rs2) in
    exists R1 R2,
      results o1 = Some R1 /\ results o2 = Some R2 /\
      results o = Some (R1 ++ R2) /\
      sent o = sent o1 ++ sent o2 /\
      Http.success (reply o) = Http.success (reply o1) && Http.success (reply o2).
Proof.
  intros net s b rs1 rs2 C M K. cbv zeta.
  rewrite !(with_recipients_numbers _ s b _ C M K). cbv zeta. simpl.
  exists (outcomes net b [] rs1), (outcomes (after net (sends b rs1)) b [] rs2).
  rewrite outcomes_app, outcomes_after, app_nil_r, sends_app, forallb_app.
  repeat split.
Qed.

Lemma publish_splits_witness :
  sent (publish second_fails Session.paired
          (with_recipients three_numbers (["+44 123-456-789"] ++ ["15550100"])))
  = sent (publish second_fails Session.paired
            (with_recipients three_numbers ["+44 123-456-789"]))
    ++ sent (publish
               (after second_fails
                  (sent (publish second_fails Session.paired
                           (with_recipients three_numbers ["+44 123-456-789"]))))
               Session.paired (with_recipients three_numbers ["15550100"])).
Proof.
  destruct (publish_splits second_fails Session.paired three_numbers
              ["+44 123-456-789"] ["15550100"] eq_refl eq_refl eq_refl)
    as (R1 & R2 & _ & _ & _ & H & _).
  exact H.
Defined.

(** X14.  On a transport whose answer to a call does not depend on the
    calls made before, the order of the recipients does not matter: each
    recipient gets the result it would get alone, and a request with the
    same recipients in another order gets the same results, reordered, and
    the same overall success. *)
Theorem publish_order_independent :
  forall net s b rs rs',
    history_free net ->
    Session.sock_and_isConnected s = true ->
    mode b = Some "numbers" ->
    truthy (caption b) = true ->
    Permutation rs rs' ->
    let o := publish net s (with_recipients b rs) in
    let o' := publish net s (with_recipients b rs') in
    results o = Some (map (result_of net b []) rs) /\
    results o' = Some (map (result_of net b []) rs') /\
    Permutation (map (result_of net b []) rs) (map (result_of net b []) rs') /\
    Http.success (reply o) = Http.success (reply o').
Proof.
  intros net s b rs rs' H C M K P. cbv zeta.
  rewrite !(with_recipients_numbers _ s b _ C M K). cbv zeta. simpl.
  rewrite !(outcomes_history_free net b _ H).
  repeat split.
  - now apply Permutation_map.
  - apply forallb_Permutation. now apply Permutation_map.
Qed.

Lemma publish_order_independent_witness :
  Http.success
    (reply (publish reliable Session.paired
              (with_recipients three_numbers ["15550100"; "+44 123-456-789"])))
  = Http.success
      (reply (publish reliable Session.paired
                (with_recipients three_numbers ["+44 123-456-789"; "15550100"]))).
Proof.
  apply (publish_order_independent reliable Session.paired three_numbers
           ["15550100"; "+44 123-456-789"] ["+44 123-456-789"; "15550100"]).
  - intros l1 l2 m. reflexivity.
  - reflexivity.
  - reflexivity.
  - reflexivity.
  - apply perm_swap.
Defined.

End DispatchMore.

(** * Requests and the connection *)

Section RoutesMore.

Import Dispatch Runs.







Lemma sock_none_step l s :
  is_socket_made l = false -> Session.sock s = None -> Session.sock (Session.step l s) = None.
Proof.
  intros L N. destruct l as [h u|h c| | | | |a]; simpl; try discriminate L.
  - destruct (Session.is_live h s); [|exact N].
    unfold Session.on_connection_update, Session.on_qr.
    destruct (truthy (Session.qr u)); destruct (Session.connection u) as [[]|]; exact N.
  - destruct (Session.is_live h s); exact N.
  - destruct (Session.timers s); exact N.
  - destruct (Session.sock_and_isConnected s); exact N.
  - now rewrite N.
  - destruct (Session.loggingOut s); [exact N|]. destruct a; [reflexivity|exact N].
Qed.

(** X16.  With no handle nothing is sent: from a state whose handle is null
    (process start without credentials, or after a logout), and until a
    connect sequence creates a transport, POST /publish and GET /groups are
    refused with status 400 and make no call to the transport, whatever
    events arrive in between, an open event of an older transport
    included. *)
Theorem refused_without_handle :
  forall tr s net b fetch,
    Session.sock s = None ->
    forallb (fun l => negb (is_socket_made l)) tr = true ->
    let s' := Session.exec tr s in
    NotConnected (publish net s' b) /\ sent (publish net s' b) = [] /\
    Directory.code (Directory.get_groups fetch s') = 400 /\
    Directory.called (Directory.get_groups fetch s') = false.
Proof.
  intros tr s net b fetch N H. cbv zeta.
  assert (E : Session.sock (Session.exec tr s) = None).
  { revert s N. induction tr as [|l tr IH]; intros s N; [exact N|].
    simpl in H. apply andb_true_iff in H. destruct H as [Hl Ht].
    simpl. apply (IH Ht). apply sock_none_step; [|exact N].
    now apply negb_true_iff in Hl. }
  unfold publish, NotConnected, Directory.get_groups, Session.sock_and_isConnected.
  rewrite E. simpl. auto.
Qed.

Lemma refused_without_handle_witness :
  let s := fst (Session.logout Resolved [] Session.connected_with_stray_code) in
  Session.isConnected (Session.exec [Session.ConnectionUpdate 0 Session.opened] s) = true /\
  sent (publish reliable (Session.exec [Session.ConnectionUpdate 0 Session.opened] s)
          three_numbers) = [].
Proof.
  cbv zeta. split; [reflexivity|].
  apply (refused_without_handle [Session.ConnectionUpdate 0 Session.opened]
           (fst (Session.logout Resolved [] Session.connected_with_stray_code))
           reliable three_numbers (Directory.Failed "x"));
    reflexivity.
Defined.

(** X17.  GET /groups: when the handle is connected and the transport
    answers, the list has one entry per group, in the transport's order,
    with its id, its subject as name and the number of its participants;
    when the transport's call rejects the answer is a failure 500 carrying
    the error's message; and in every reachable state whose phase is
    Disconnected the request is refused with 400 without calling the
    transport. *)
Theorem get_groups_contract :
  forall fetch s,
    let o := Directory.get_groups fetch s in
    (Session.sock_and_isConnected s = true ->
       (forall values,
           fetch = Directory.Groups values ->
           exists L,
             Directory.groups o = Some L /\ Directory.code o = 200 /\
             List.length L = List.length values /\
             forall i g,
               nth_error values i = Some g ->
               nth_error L i
               = Some (Directory.mkEntry (Directory.Metadata.id g)
                         (Directory.Metadata.subject g)
                         (List.length (Directory.Metadata.participants g)))) /\
       (forall m,
           fetch = Directory.Failed m ->
           Directory.code o = 500 /\ Directory.success o = false /\
           Directory.message o = Some m /\ Directory.groups o = None)) /\
    (Session.reachable s -> Session.connectionStatus s = Session.disconnected ->
       Directory.code o = 400 /\ Directory.called o = false /\
       Directory.groups o = None).
Proof.
  intros fetch s. cbv zeta. split.
  - intros C. unfold Directory.get_groups. rewrite C. simpl. split.
    + intros values ->. exists (Directory.groupList values).
      split; [reflexivity|]. split; [reflexivity|].
      unfold Directory.groupList. split; [apply length_map|].
      intros i g H. now rewrite nth_error_map, H.
    + intros m ->. simpl. auto.
  - intros R D. apply disconnected_flag_reachable in R. specialize (R D).
    unfold Directory.get_groups, Session.sock_and_isConnected. rewrite R.
    destruct (Session.sock s); simpl; auto.
Qed.

Lemma get_groups_contract_witness :
  Directory.code
    (Directory.get_groups
       (Directory.Groups [Directory.Metadata.mk "g1@g.us" "Team" ["a"; "b"]])
       Session.paired) = 200 /\
  Directory.called (Directory.get_groups (Directory.Failed "x") (Session.init None)) = false.
Proof.
  split.
  - destruct (proj1 (proj1 (get_groups_contract
                (Directory.Groups [Directory.Metadata.mk "g1@g.us" "Team" ["a"; "b"]])
                Session.paired) eq_refl) _ eq_refl) as (L & _ & H & _).
    exact H.
  - apply (proj2 (get_groups_contract (Directory.Failed "x") (Session.init None)));
      [exists None, []|]; reflexivity.
Defined.

End RoutesMore.
